(** * pyzor: configuration loaders, record codec and eviction sweep

    A shallow embedding of [pyzor/config.py] (the server ACL loader, the
    server accounts loader and the client accounts loader) and of the
    record encoding exercised by [tests/test_gdbm.py], with the properties
    the specification states about them.

    Python 2 [str] values are modelled as [string] (one [ascii] per byte),
    dictionaries as [gmap], sets as [gset], a file as [option string]
    ([None] when [os.path.exists] is false, otherwise its content). *)

From Stdlib Require Import Ascii ZArith Lia.
From Stdlib Require DecimalString DecimalZ.
From stdpp Require Import base option list gmap strings.

#[local] Set Warnings "-clear-no-such-hyp".

Local Open Scope Z_scope.

(** ** Python string primitives *)

Module Py.

(** [c.isspace()] for a byte in the C locale: space, \t, \n, \v, \f, \r. *)
Definition isspace (c : ascii) : bool :=
  let n := nat_of_ascii c in
  ((n =? 32) || ((9 <=? n) && (n <=? 13)))%nat.

Definition isupper (c : ascii) : bool :=
  let n := nat_of_ascii c in ((65 <=? n) && (n <=? 90))%nat.

Definition isdigit (c : ascii) : bool :=
  let n := nat_of_ascii c in ((48 <=? n) && (n <=? 57))%nat.

(** [c.lower()]: only A-Z are changed. *)
Definition lower_char (c : ascii) : ascii :=
  if isupper c then ascii_of_nat (nat_of_ascii c + 32) else c.

(** [s.lower()] *)
Fixpoint lower (s : string) : string :=
  match s with
  | EmptyString => EmptyString
  | String c s' => String (lower_char c) (lower s')
  end.

(** [s.lstrip()] *)
Fixpoint lstrip (s : string) : string :=
  match s with
  | EmptyString => EmptyString
  | String c s' => if isspace c then lstrip s' else s
  end.

(** [s.rstrip()] *)
Fixpoint rstrip (s : string) : string :=
  match s with
  | EmptyString => EmptyString
  | String c s' =>
      match rstrip s' with
      | EmptyString => if isspace c then EmptyString else String c EmptyString
      | r => String c r
      end
  end.

(** [s.strip()] *)
Definition strip (s : string) : string := rstrip (lstrip s).

(** Cut [s] at every character satisfying [p]; the pieces between two
    cuts may be empty, and there is always at least one piece. *)
Fixpoint split_on (p : ascii → bool) (s : string) : list string :=
  match s with
  | EmptyString => [EmptyString]
  | String c s' =>
      if p c then EmptyString :: split_on p s'
      else match split_on p s' with
           | w :: ws => String c w :: ws
           | [] => [String c EmptyString]
           end
  end.

(** [s.split(sep)] for a one-character separator. *)
Definition split (sep : ascii) (s : string) : list string :=
  split_on (λ c, bool_decide (c = sep)) s.

Definition nonempty (s : string) : bool :=
  match s with EmptyString => false | _ => true end.

(** [s.split()]: the maximal runs of non-whitespace characters. *)
Definition split_ws (s : string) : list string :=
  filter (λ w, nonempty w = true) (split_on isspace s).

(** [sep.join(l)] *)
Fixpoint join (sep : string) (l : list string) : string :=
  match l with
  | [] => EmptyString
  | [w] => w
  | w :: ws => w +:+ sep +:+ join sep ws
  end.

(** [s.startswith(c)] for a one-character prefix. *)
Definition startswith (c : ascii) (s : string) : bool :=
  match s with
  | String c' _ => bool_decide (c' = c)
  | EmptyString => false
  end.

Definition newline : ascii := ascii_of_nat 10.

(** Iterating over an open text file: the content cut after every
    newline, each line keeping its terminator. *)
Fixpoint readlines (s : string) : list string :=
  match s with
  | EmptyString => []
  | String c s' =>
      if bool_decide (c = newline) then String c EmptyString :: readlines s'
      else match readlines s' with
           | l :: ls => String c l :: ls
           | [] => [String c EmptyString]
           end
  end.

End Py.

(** ** Logging

    A log record keeps the level, the format string and the string
    arguments of the call; the rendering of [%r] is not modelled. *)

Inductive level := DEBUG | INFO | WARNING.

Record log_record := LogRecord {
  log_level : level;
  log_format : string;
  log_args : list string
}.

(** ** Exceptions

    Only the two exception classes the loaders catch are distinguished;
    each carries its message. *)

Inductive exn := ValueError (msg : string) | KeyError (msg : string).

(** Tuple unpacking [a, b = l], [a, b, c = l] and [a, b, c, d = l]: a
    [ValueError] unless the length fits. *)
Definition unpack2 (l : list string) : exn + (string * string) :=
  match l with
  | [a; b] => inr (a, b)
  | _ => inl (ValueError "wrong number of values to unpack")
  end.

Definition unpack3 (l : list string) : exn + (string * string * string) :=
  match l with
  | [a; b; c] => inr (a, b, c)
  | _ => inl (ValueError "wrong number of values to unpack")
  end.

Definition unpack4 (l : list string) : exn + (string * string * string * string) :=
  match l with
  | [a; b; c; d] => inr (a, b, c, d)
  | _ => inl (ValueError "wrong number of values to unpack")
  end.

(** ** pyzor/config.py, server side: the access file *)

(** [pyzor.anonymous_user] *)
Definition anonymous_user : string := "anonymous".

(** The test of the two loaders of the server for a line to ignore:
    [not line.strip() or line[0] == "#"]. *)
Definition blank_or_comment (line : string) : bool :=
  negb (Py.nonempty (Py.strip line)) || Py.startswith "#" line.

(** [acl[user].update(operations)] on a [defaultdict(set)] *)
Definition acl_update (acl : gmap string (gset string)) (user : string)
    (operations : list string) : gmap string (gset string) :=
  <[user := default ∅ (acl !! user) ∪ list_to_set operations]> acl.

(** [acl[user].difference_update(operations)] on a [defaultdict(set)] *)
Definition acl_difference_update (acl : gmap string (gset string))
    (user : string) (operations : list string) : gmap string (gset string) :=
  <[user := default ∅ (acl !! user) ∖ list_to_set operations]> acl.

Definition all_operations : list string :=
  ["check"; "report"; "ping"; "pong"; "info"; "whitelist"].

(** [{"allow": True, "deny": False}[allowed]] *)
Definition allow_deny (allowed : string) : exn + bool :=
  if decide (allowed = "allow") then inr true
  else if decide (allowed = "deny") then inr false
  else inl (KeyError allowed).

(** The iteration [for user in accounts] over the keys of a dictionary. *)
Definition keys {V} (accounts : gmap string V) : list string :=
  (map_to_list accounts).*1.

Definition join_ops (operations : list string) : string := Py.join "," operations.

(** The [for user in users] loop of one rule line. *)
Definition apply_rule (allowed : bool) (operations users : list string)
    (st : gmap string (gset string) * list log_record)
    : gmap string (gset string) * list log_record :=
  foldl (λ '(acl, log) user,
           if allowed
           then (acl_update acl user operations,
                 log ++ [LogRecord DEBUG "Granting %s to %s." [join_ops operations; user]])
           else (acl_difference_update acl user operations,
                 log ++ [LogRecord DEBUG "Revoking %s from %s." [join_ops operations; user]]))
        st users.

(** [[part.lower().strip() for part in line.split(":")]] unpacked into
    [operations, users, allowed]. *)
Definition access_fields (line : string) : exn + (string * string * string) :=
  unpack3 ((λ part, Py.strip (Py.lower part)) <$> Py.split ":" line).

(** The operations a rule line stands for. *)
Definition rule_operations (operations : string) : list string :=
  if decide (operations = "all") then all_operations
  else Py.strip <$> Py.split_ws operations.

(** The users a rule line stands for. *)
Definition rule_users {V} (accounts : gmap string V) (users : string) : list string :=
  if decide (users = "all") then keys accounts
  else Py.strip <$> Py.split_ws users.

(** The body of the [for line in open(access_fn)] loop. *)
Definition access_line {V} (accounts : gmap string V)
    (st : gmap string (gset string) * list log_record) (line : string)
    : gmap string (gset string) * list log_record :=
  if blank_or_comment line then st
  else
    match access_fields line with
    | inr (operations, users, allowed) =>
        match allow_deny allowed with
        | inl _ => (st.1, st.2 ++ [LogRecord WARNING "Invalid ACL line: %r" [line]])
        | inr allowed =>
            apply_rule allowed (rule_operations operations)
                       (rule_users accounts users) st
        end
    | inl _ => (st.1, st.2 ++ [LogRecord WARNING "Invalid ACL line: %r" [line]])
    end.

Definition default_acl_message : string :=
  "Using default ACL: the anonymous user may use the check, report, ping and info commands.".

(** [load_access_file(access_fn, accounts)]; [access_fn] is given by what
    the file system holds at that path. *)
Definition load_access_file {V} (access_fn : option string)
    (accounts : gmap string V) : gmap string (gset string) * list log_record :=
  match access_fn with
  | None =>
      (<[anonymous_user := list_to_set ["check"; "report"; "ping"; "pong"; "info"]]> ∅,
       [LogRecord INFO default_acl_message []])
  | Some content =>
      let '(acl, log) := foldl (access_line accounts) (∅, []) (Py.readlines content) in
      (acl, log ++ [LogRecord INFO "ACL: %r" []])
  end.

(** Modelled from the spec: the query of the compiled ACL is not a function
    of [config.py]; the specification gives it as "whether [command] is in
    [acl[username]]; a username absent from [acl] yields [false]". *)
Definition query (acl : gmap string (gset string)) (username command : string) : bool :=
  bool_decide (command ∈ default ∅ (acl !! username)).

(** ** pyzor/config.py, server side: the accounts file *)

(** The body of the [for line in open(passwd_fn)] loop. *)
Definition passwd_line (st : gmap string string * list log_record) (line : string)
    : gmap string string * list log_record :=
  if blank_or_comment line then st
  else
    match unpack2 (Py.split ":" line) with
    | inl _ => (st.1, st.2 ++ [LogRecord WARNING "Invalid accounts line: %r" [line]])
    | inr (user, key) =>
        let user := Py.strip user in
        let key := Py.strip key in
        (<[user := key]> st.1,
         st.2 ++ [LogRecord DEBUG "Creating an account for %s with key %s." [user; key]])
    end.

Definition no_accounts_file_message : string :=
  "Accounts file does not exist - only the anonymous user will be available.".

(** [load_passwd_file(passwd_fn)] *)
Definition load_passwd_file (passwd_fn : option string)
    : gmap string string * list log_record :=
  match passwd_fn with
  | None => (∅, [LogRecord INFO no_accounts_file_message []])
  | Some content =>
      let '(accounts, log) := foldl passwd_line (∅, []) (Py.readlines content) in
      (accounts, log ++ [LogRecord INFO "Accounts: %s" [Py.join "," (keys accounts)]])
  end.

(** ** Python integers as text *)

(** [str(n)] for an integer: decimal digits, a leading [-] when negative. *)
Definition py_str (n : Z) : string := DecimalString.NilZero.string_of_int (Z.to_int n).

(** [int(s)]: surrounding whitespace is ignored, then an optional sign and
    one or more decimal digits; anything else is a [ValueError]. *)
Definition py_int (s : string) : exn + Z :=
  let t := Py.strip s in
  let bad := inl (ValueError ("invalid literal for int() with base 10: '" +:+ s +:+ "'")) in
  match t with
  | String "-" digits =>
      match DecimalString.NilZero.uint_of_string digits with
      | Some d => inr (- Z.of_uint d)
      | None => bad
      end
  | String "+" digits =>
      match DecimalString.NilZero.uint_of_string digits with
      | Some d => inr (Z.of_uint d)
      | None => bad
      end
  | _ =>
      match DecimalString.NilZero.uint_of_string t with
      | Some d => inr (Z.of_uint d)
      | None => bad
      end
  end.

(** ** pyzor/config.py, client side: the accounts file *)

(** The port of an address is the integer [int(port)] gave, or still the
    text of the field when the conversion was not done. *)
Inductive port_value := PortInt (n : Z) | PortStr (s : string).

Global Instance port_value_eq_dec : EqDecision port_value.
Proof. solve_decision. Defined.

Global Instance port_value_countable : Countable port_value :=
  inj_countable'
    (λ p, match p with PortInt n => inl n | PortStr s => inr s end)
    (λ x, match x with inl n => PortInt n | inr s => PortStr s end)
    (λ p, match p with PortInt _ => eq_refl | PortStr _ => eq_refl end).

Section ClientAccounts.

(** [pyzor.account] is not part of the sources at hand: the values of
    the salt and of the key, their truth value, [key_from_hexstr] and
    the constructor [Account] are parameters of the loader. *)
Context {Salt Key Account : Type}.
Variable salt_truth : Salt → bool.
Variable key_truth : Key → bool.
Variable key_from_hexstr : string → exn + (Salt * Key).
Variable mkAccount : string → Salt → Key → exn + Account.

(** From [address = (host, port)] to the end of the loop body, for the
    value [port] has at that point; [inl] is an exception that leaves
    [load_accounts]. *)
Definition accounts_entry (lineno : nat) (host : string) (port : port_value)
    (username key : string)
    (st : gmap (string * port_value) Account * list log_record)
    : exn + (gmap (string * port_value) Account * list log_record) :=
  let address := (host, port) in
  match key_from_hexstr key with
  | inl e => inl e
  | inr (salt, key) =>
      if negb (salt_truth salt) && negb (key_truth key) then
        inr (st.1, st.2 ++ [LogRecord WARNING
               "account file: invalid line %d: keystuff can't be all None's"
               [py_str (Z.of_nat lineno)]])
      else
        match mkAccount username salt key with
        | inr account => inr (<[address := account]> st.1, st.2)
        | inl (ValueError e) =>
            inr (st.1, st.2 ++ [LogRecord WARNING
                   "account file: invalid line %d: %s"
                   [py_str (Z.of_nat lineno); e]])
        | inl e => inl e
        end
  end.

(** The body of the [for lineno, orig_line in enumerate(open(filename))]
    loop. *)
Definition accounts_line (lineno : nat) (orig_line : string)
    (st : gmap (string * port_value) Account * list log_record)
    : exn + (gmap (string * port_value) Account * list log_record) :=
  let line := Py.strip orig_line in
  if negb (Py.nonempty line) || Py.startswith "#" line then inr st
  else
    match unpack4 (Py.strip <$> Py.split ":" line) with
    | inl _ =>
        inr (st.1, st.2 ++ [LogRecord WARNING
               "account file: invalid line %d: wrong number of parts"
               [py_str (Z.of_nat lineno)]])
    | inr (host, port, username, key) =>
        match py_int port with
        | inr n => accounts_entry lineno host (PortInt n) username key st
        | inl (ValueError e) =>
            accounts_entry lineno host (PortStr port) username key
              (st.1, st.2 ++ [LogRecord WARNING "account file: invalid line %d: %s"
                                [py_str (Z.of_nat lineno); e]])
        | inl e => inl e
        end
    end.

Fixpoint load_accounts_lines (lineno : nat) (lines : list string)
    (st : gmap (string * port_value) Account * list log_record)
    : exn + (gmap (string * port_value) Account * list log_record) :=
  match lines with
  | [] => inr st
  | orig_line :: lines' =>
      match accounts_line lineno orig_line st with
      | inl e => inl e
      | inr st' => load_accounts_lines (S lineno) lines' st'
      end
  end.

Definition no_accounts_message : string :=
  "No accounts are setup.  All commands will be executed by the anonymous user.".

(** [load_accounts(filename)] *)
Definition load_accounts (filename : option string)
    : exn + (gmap (string * port_value) Account * list log_record) :=
  match filename with
  | Some content => load_accounts_lines 0 (Py.readlines content) (∅, [])
  | None => inr (∅, [LogRecord WARNING no_accounts_message []])
  end.

End ClientAccounts.

(** ** Timestamps

    The fields of a [datetime.datetime] without time zone. *)

Record datetime := Datetime {
  year : Z; month : Z; day : Z;
  hour : Z; minute : Z; second : Z; microsecond : Z
}.

Definition is_leap (y : Z) : bool :=
  (y mod 4 =? 0) && (negb (y mod 100 =? 0) || (y mod 400 =? 0)).

Definition days_in_month (y m : Z) : Z :=
  if m =? 2 then (if is_leap y then 29 else 28)
  else if (m =? 4) || (m =? 6) || (m =? 9) || (m =? 11) then 30
  else 31.

(** The ranges the constructor of [datetime] enforces. *)
Definition valid_datetimeb (d : datetime) : bool :=
  (1 <=? year d) && (year d <=? 9999) &&
  (1 <=? month d) && (month d <=? 12) &&
  (1 <=? day d) && (day d <=? days_in_month (year d) (month d)) &&
  (0 <=? hour d) && (hour d <? 24) &&
  (0 <=? minute d) && (minute d <? 60) &&
  (0 <=? second d) && (second d <? 60) &&
  (0 <=? microsecond d) && (microsecond d <? 1000000).

Definition valid_datetime (d : datetime) : Prop := valid_datetimeb d = true.

Definition digit_char (n : Z) : ascii := ascii_of_nat (48 + Z.to_nat n).

Definition digit_value (c : ascii) : Z := Z.of_nat (nat_of_ascii c) - 48.

(** The [w] low-order decimal digits of [n], most significant first: what
    the format [%0wd] prints when [0 <= n < 10^w], which the fields of a
    [datetime] satisfy. *)
Fixpoint zero_padded (w : nat) (n : Z) : string :=
  match w with
  | O => EmptyString
  | S w' => String (digit_char ((n / 10 ^ Z.of_nat w') mod 10)) (zero_padded w' n)
  end.

(** [str(d)], that is [d.isoformat(' ')]: the fraction is printed only
    when the microseconds are not zero. *)
Definition datetime_str (d : datetime) : string :=
  zero_padded 4 (year d) +:+ "-" +:+ zero_padded 2 (month d) +:+ "-" +:+
  zero_padded 2 (day d) +:+ " " +:+ zero_padded 2 (hour d) +:+ ":" +:+
  zero_padded 2 (minute d) +:+ ":" +:+ zero_padded 2 (second d) +:+
  (if microsecond d =? 0 then EmptyString
   else "." +:+ zero_padded 6 (microsecond d)).

(** Read exactly [w] decimal digits. *)
Fixpoint read_digits (w : nat) (acc : Z) (s : string) : option (Z * string) :=
  match w with
  | O => Some (acc, s)
  | S w' =>
      match s with
      | String c s' =>
          if Py.isdigit c then read_digits w' (acc * 10 + digit_value c) s' else None
      | EmptyString => None
      end
  end.

Definition expect (c : ascii) (s : string) : option string :=
  match s with
  | String c' s' => if decide (c' = c) then Some s' else None
  | EmptyString => None
  end.

(** Modelled from the spec: the decoder of the timestamps of a stored
    record (in [pyzor.engines.gdbm_], not part of the sources at hand) is
    the inverse of the textual form [str] gives them; it fails on any
    other text and on fields out of range. *)
Definition parse_datetime (s : string) : option datetime :=
  '(y, s) ← read_digits 4 0 s;
  s ← expect "-" s;
  '(mo, s) ← read_digits 2 0 s;
  s ← expect "-" s;
  '(d, s) ← read_digits 2 0 s;
  s ← expect " " s;
  '(h, s) ← read_digits 2 0 s;
  s ← expect ":" s;
  '(mi, s) ← read_digits 2 0 s;
  s ← expect ":" s;
  '(sec, s) ← read_digits 2 0 s;
  '(us, s) ← match s with
             | EmptyString => Some (0, EmptyString)
             | String c s' =>
                 if decide (c = "."%char) then read_digits 6 0 s' else None
             end;
  let r := Datetime y mo d h mi sec us in
  if Py.nonempty s then None
  else if valid_datetimeb r then Some r else None.

(** ** Records and their stored form *)

(** [pyzor.engines.common.Record], with the attributes the tests read. *)
Record record := Record_ {
  r_count : Z;
  wl_count : Z;
  r_entered : datetime;
  r_updated : datetime;
  wl_entered : datetime;
  wl_updated : datetime
}.

(** A valid record: counts that are not negative, timestamps that are
    dates. *)
Definition valid_record (r : record) : Prop :=
  0 <= r_count r ∧ 0 <= wl_count r ∧
  valid_datetime (r_entered r) ∧ valid_datetime (r_updated r) ∧
  valid_datetime (wl_entered r) ∧ valid_datetime (wl_updated r).

(** [GdbmTest.record_as_str]:
    ["1,%s,%s,%s,%s,%s,%s" % (r_count, r_entered, r_updated, wl_count,
    wl_entered, wl_updated)]. *)
Definition record_as_str (r : record) : string :=
  Py.join ","
    ["1"; py_str (r_count r); datetime_str (r_entered r);
     datetime_str (r_updated r); py_str (wl_count r);
     datetime_str (wl_entered r); datetime_str (wl_updated r)].

(** Modelled from the spec: [encode] of the record codec
    ([pyzor.engines.gdbm_] is not part of the sources at hand). The
    specification gives the text it produces, and [test_set_item] requires
    the stored value to be [record_as_str] of the record. *)
Definition encode_record (r : record) : string := record_as_str r.

Inductive decode_error := UnknownVersion | WrongFieldCount | BadField.

(** Modelled from the spec: [decode] of the record codec
    ([pyzor.engines.gdbm_] is not part of the sources at hand): "inverse of
    encode; fails with a DecodeError when the version marker is not
    recognized, when the field count is wrong, or when any field fails to
    parse as its expected type". *)
Definition decode_record (s : string) : decode_error + record :=
  match Py.split "," s with
  | [version; rc; re; ru; wc; we; wu] =>
      if decide (version = "1") then
        match py_int rc, parse_datetime re, parse_datetime ru,
              py_int wc, parse_datetime we, parse_datetime wu with
        | inr rc, Some re, Some ru, inr wc, Some we, Some wu =>
            inr (Record_ rc wc re ru we wu)
        | _, _, _, _, _, _ => inl BadField
        end
      else inl UnknownVersion
  | _ => inl WrongFieldCount
  end.

(** ** The eviction sweep *)

(** [d.toordinal()] and the microseconds since the start of day 0 of the
    proleptic Gregorian calendar. *)
Definition days_before_year (y : Z) : Z :=
  let y := y - 1 in y * 365 + y / 4 - y / 100 + y / 400.

Definition days_before_month (y m : Z) : Z :=
  foldr (λ i acc, days_in_month y i + acc) 0
        (Z.of_nat <$> seq 1 (Z.to_nat (m - 1))).

Definition toordinal (d : datetime) : Z :=
  days_before_year (year d) + days_before_month (year d) (month d) + day d.

Definition to_microseconds (d : datetime) : Z :=
  (((toordinal d * 24 + hour d) * 60 + minute d) * 60 + second d) * 1000000
  + microsecond d.

(** Modelled from the spec: the age test of the sweep,
    "[now − max(reportUpdated, whitelistUpdated) > maxAgeSeconds]". *)
Definition expired (now : datetime) (max_age : Z) (r : record) : bool :=
  max_age * 1000000 <?
  to_microseconds now
  - Z.max (to_microseconds (r_updated r)) (to_microseconds (wl_updated r)).

(** Modelled from the spec: one step of the sweep of the digest store
    ([pyzor.engines.gdbm_] is not part of the sources at hand): decode the
    record stored under [key] and delete the key when the record is too
    old; a value that does not decode is logged and the sweep goes on. *)
Definition sweep_key (now : datetime) (max_age : Z)
    (st : gmap string string * list log_record) (key : string)
    : gmap string string * list log_record :=
  match st.1 !! key with
  | None => st
  | Some raw =>
      match decode_record raw with
      | inl _ => (st.1, st.2 ++ [LogRecord WARNING "cannot decode the record of %s" [key]])
      | inr r =>
          if expired now max_age r
          then (delete key st.1, st.2 ++ [LogRecord DEBUG "deleting key %s" [key]])
          else st
      end
  end.

(** Modelled from the spec: one full pass of the eviction sweep, "iterates
    every key, decodes its Record, and deletes the key if
    [now − max(reportUpdated, whitelistUpdated) > maxAgeSeconds]". *)
Definition sweep (now : datetime) (max_age : Z) (db : gmap string string)
    : gmap string string * list log_record :=
  foldl (sweep_key now max_age) (db, []) (keys db).

(** ** Observations used in the statements *)

Definition nl : string := String Py.newline EmptyString.

(** Every character of [s] satisfies [p]. *)
Fixpoint string_forall (p : ascii → bool) (s : string) : bool :=
  match s with
  | EmptyString => true
  | String c s' => p c && string_forall p s'
  end.

(** What a rule line does to the set of one user. *)
Definition rule_effect (allowed : bool) (permitted : gset string)
    (operations : list string) : gset string :=
  if allowed then permitted ∪ list_to_set operations
  else permitted ∖ list_to_set operations.

(** The line is a rule whose users field is not the keyword and lists [u]. *)
Definition lists_user (u : string) (line : string) : bool :=
  negb (blank_or_comment line) &&
  match access_fields line with
  | inr (_, users, allowed) =>
      match allow_deny allowed with
      | inr _ =>
          bool_decide (users ≠ "all") &&
          bool_decide (u ∈ Py.strip <$> Py.split_ws users)
      | inl _ => false
      end
  | inl _ => false
  end.

(** The line is a rule whose users field is the keyword [all]. *)
Definition uses_all (line : string) : bool :=
  negb (blank_or_comment line) &&
  match access_fields line with
  | inr (_, users, allowed) =>
      match allow_deny allowed with
      | inr _ => bool_decide (users = "all")
      | inl _ => false
      end
  | inl _ => false
  end.

(** The line is a rule that lists [u] among its users, by name or through
    the keyword, and [c] among its operations. *)
Definition touches {V} (accounts : gmap string V) (u c : string) (line : string) : bool :=
  negb (blank_or_comment line) &&
  match access_fields line with
  | inr (operations, users, allowed) =>
      match allow_deny allowed with
      | inr _ =>
          bool_decide (u ∈ rule_users accounts users) &&
          bool_decide (c ∈ rule_operations operations)
      | inl _ => false
      end
  | inl _ => false
  end.

(** The username a line of the server accounts file defines, if any. *)
Definition passwd_user (line : string) : option string :=
  if blank_or_comment line then None
  else match unpack2 (Py.split ":" line) with
       | inr (user, _) => Some (Py.strip user)
       | inl _ => None
       end.

(** The rules of the precedence example, and accounts with a mixed-case
    name. *)
Definition precedence_rules : string :=
  "all : bob : allow" +:+ nl +:+ "report : bob : deny" +:+ nl.

Definition mixed_case_accounts : gmap string string :=
  (load_passwd_file (Some ("Bob : secret" +:+ nl))).1.

(** The character is not the separator of the stored form. *)
Definition no_comma (c : ascii) : bool := negb (bool_decide (c = ","%char)).

Definition sample_record : record :=
  Record_ 24 42 (Datetime 2024 2 29 13 5 9 0) (Datetime 2024 3 1 0 0 0 123)
          (Datetime 2023 12 31 23 59 59 999999) (Datetime 2024 1 1 0 0 0 0).

(** What the sweep makes of the value stored under one key. *)
Definition swept (now : datetime) (max_age : Z) (stored : option string)
    : option string :=
  match stored with
  | Some raw =>
      match decode_record raw with
      | inr r => if expired now max_age r then None else Some raw
      | inl _ => Some raw
      end
  | None => None
  end.

(** The record of [GdbmTest.setUp], seen on 2024-03-01 at 08:00: entered
    10 days ago and updated 2 days ago, whitelisted 20 days ago and last
    whitelisted 3 days ago. *)
Definition test_record : record :=
  Record_ 24 42 (Datetime 2024 2 20 8 0 0 0) (Datetime 2024 2 28 8 0 0 0)
          (Datetime 2024 2 10 8 0 0 0) (Datetime 2024 2 27 8 0 0 0).

Definition test_store : gmap string string :=
  <["2aedaac999d71421c9ee49b9d81f627a7bc570aa" := encode_record test_record]> ∅.

(** A stand-in for [pyzor.account], to run the loader: the key material is
    cut at its comma into salt and key, and an account keeps the three
    values it is made of. *)
Definition comma_pair (s : string) : exn + (string * string) :=
  unpack2 (Py.split "," s).

Definition plain_account (username salt key : string)
    : exn + (string * string * string) :=
  inr (username, salt, key).

(** ** tests/test_gdbm.py: the mock database *)

(** The two exceptions the mock can raise. *)
Inductive mock_exn := IndexError | AttributeError.

(** [MockGdbm]: a dictionary, and the attribute [key_index] once
    [firstkey] has set it. *)
Record MockGdbm := Mock {
  mock_dict : gmap string string;
  key_index : option nat
}.

(** [MockGdbm.firstkey]; the result comes with the object after the call. *)
Definition firstkey (db : MockGdbm) : option string * MockGdbm :=
  match keys (mock_dict db) with
  | [] => (None, db)
  | k :: _ => (Some k, Mock (mock_dict db) (Some 1%nat))
  end.

(** [MockGdbm.nextkey]: the attribute is incremented before the list of
    keys is indexed, so the object after an [IndexError] has the new
    index. *)
Definition nextkey (db : MockGdbm) (key : string)
    : (mock_exn + option string) * MockGdbm :=
  match key_index db with
  | None => (inl AttributeError, db)
  | Some i =>
      if (length (keys (mock_dict db)) <=? i)%nat then (inr None, db)
      else
        let db' := Mock (mock_dict db) (Some (S i)) in
        match keys (mock_dict db') !! S i with
        | Some k => (inr (Some k), db')
        | None => (inl IndexError, db')
        end
  end.

(** The traversal the two methods are made for:
    [k = db.firstkey()], then [while k is not None: ...; k = db.nextkey(k)].
    [walk] is the loop, entered with the key [k] at hand; it gives the keys
    visited and how the loop ended, or [None] when [fuel] rounds were not
    enough. *)
Fixpoint walk (fuel : nat) (db : MockGdbm) (k : string)
    : option (list string * (mock_exn + unit)) :=
  match fuel with
  | O => None
  | S fuel' =>
      match nextkey db k with
      | (inl e, _) => Some ([k], inl e)
      | (inr None, _) => Some ([k], inr tt)
      | (inr (Some k'), db') =>
          '(visited, outcome) ← walk fuel' db' k';
          Some (k :: visited, outcome)
      end
  end.

Definition traverse (fuel : nat) (db : MockGdbm)
    : option (list string * (mock_exn + unit)) :=
  match firstkey db with
  | (None, _) => Some ([], inr tt)
  | (Some k, db') => walk fuel db' k
  end.

(** ** Further observations used in the statements *)

(** The line reaches the parsing of a rule and fails it: it has not three
    fields, or its third field is neither [allow] nor [deny]. *)
Definition invalid_rule (line : string) : bool :=
  negb (blank_or_comment line) &&
  match access_fields line with
  | inr (_, _, allowed) =>
      match allow_deny allowed with inr _ => false | inl _ => true end
  | inl _ => true
  end.

(** The line is an [allow] rule that lists [u] among its users and [c]
    among its operations. *)
Definition grants {V} (accounts : gmap string V) (u c : string) (line : string) : bool :=
  negb (blank_or_comment line) &&
  match access_fields line with
  | inr (operations, users, allowed) =>
      match allow_deny allowed with
      | inr true =>
          bool_decide (u ∈ rule_users accounts users) &&
          bool_decide (c ∈ rule_operations operations)
      | _ => false
      end
  | inl _ => false
  end.

(** A character that is neither whitespace, nor an upper-case letter, nor
    a colon. *)
Definition plain_char (c : ascii) : bool :=
  negb (Py.isspace c) && negb (Py.isupper c) && negb (bool_decide (c = ":"%char)).

(** A name as the access loader produces them: not empty and made of
    plain characters. *)
Definition plain_name (s : string) : bool :=
  Py.nonempty s && string_forall plain_char s.

(** The address a line of the client accounts file is stored under, when
    it is stored. *)
Definition line_address (orig_line : string) : option (string * port_value) :=
  let line := Py.strip orig_line in
  if negb (Py.nonempty line) || Py.startswith "#" line then None
  else
    match unpack4 (Py.strip <$> Py.split ":" line) with
    | inr (host, port, _, _) =>
        Some (host, match py_int port with
                    | inr n => PortInt n
                    | inl _ => PortStr port
                    end)
    | inl _ => None
    end.

(** ** The primitives on examples *)

Example readlines_keeps_newlines :
  Py.readlines ("a : b" +:+ nl +:+ nl +:+ "c") = ["a : b" +:+ nl; nl; "c"].
Proof. reflexivity. Qed.

Example split_keeps_empty_parts : Py.split ":" "a:b::c" = ["a"; "b"; ""; "c"].
Proof. reflexivity. Qed.

Example split_ws_drops_runs : Py.split_ws "  check  report ping " = ["check"; "report"; "ping"].
Proof. reflexivity. Qed.

Example strip_both_ends : Py.strip ("  a b " +:+ nl) = "a b".
Proof. reflexivity. Qed.

Example lower_ascii_only : Py.lower "AbC zZ@[" = "abc zz@[".
Proof. reflexivity. Qed.

Example py_int_signed : py_int " -12 " = inr (-12).
Proof. reflexivity. Qed.

Example py_int_rejects_text :
  py_int "abc" = inl (ValueError "invalid literal for int() with base 10: 'abc'").
Proof. reflexivity. Qed.

Example datetime_str_without_fraction :
  datetime_str (Datetime 2024 2 29 13 5 9 0) = "2024-02-29 13:05:09".
Proof. reflexivity. Qed.

Example datetime_str_with_fraction :
  datetime_str (Datetime 2024 3 1 0 0 0 123) = "2024-03-01 00:00:00.000123".
Proof. reflexivity. Qed.

Example toordinal_epoch : toordinal (Datetime 1970 1 1 0 0 0 0) = 719163.
Proof. reflexivity. Qed.

Example decode_rejects_version :
  decode_record "2,1,2024-03-01 00:00:00,2024-03-01 00:00:00,1,2024-03-01 00:00:00,2024-03-01 00:00:00"
  = inl UnknownVersion.
Proof. reflexivity. Qed.

Example decode_rejects_field_count : decode_record "1,24" = inl WrongFieldCount.
Proof. reflexivity. Qed.

Example decode_rejects_bad_date :
  decode_record "1,1,2023-02-29 00:00:00,2024-03-01 00:00:00,1,2024-03-01 00:00:00,2024-03-01 00:00:00"
  = inl BadField.
Proof. reflexivity. Qed.

(** ** Strings: facts about the primitives *)

Section StringFacts.

Implicit Types (s t : string) (c : ascii) (p q : ascii → bool).

Lemma string_app_cons c s t : String c s +:+ t = String c (s +:+ t).
Proof. reflexivity. Qed.

Lemma string_app_nil s : EmptyString +:+ s = s.
Proof. reflexivity. Qed.

Lemma string_forall_app p s t :
  string_forall p (s +:+ t) = string_forall p s && string_forall p t.
Proof.
  induction s as [|c s IH]; [done|].
  rewrite string_app_cons. simpl. by rewrite IH, andb_assoc.
Qed.

Lemma string_forall_impl p q s :
  (∀ c, p c = true → q c = true) →
  string_forall p s = true → string_forall q s = true.
Proof.
  intros Hpq. induction s as [|c s IH]; simpl; [done|].
  intros [Hc Hs]%andb_true_iff. rewrite (Hpq _ Hc). by apply IH.
Qed.

Lemma lstrip_forall p s :
  string_forall p s = true → string_forall p (Py.lstrip s) = true.
Proof.
  induction s as [|c s IH]; simpl; [done|].
  intros H. destruct (Py.isspace c); [|done].
  apply andb_true_iff in H as [_ H]. by apply IH.
Qed.

Lemma rstrip_forall p s :
  string_forall p s = true → string_forall p (Py.rstrip s) = true.
Proof.
  induction s as [|c s IH]; simpl; [done|].
  intros [Hc Hs]%andb_true_iff. specialize (IH Hs).
  destruct (Py.rstrip s) as [|c' r].
  - destruct (Py.isspace c); simpl; [done|]. by rewrite Hc.
  - simpl in *. by rewrite Hc.
Qed.

Lemma strip_forall p s :
  string_forall p s = true → string_forall p (Py.strip s) = true.
Proof. intros H. by apply rstrip_forall, lstrip_forall. Qed.

(** A string without whitespace is its own [strip]. *)
Lemma lstrip_id s :
  string_forall (λ c, negb (Py.isspace c)) s = true → Py.lstrip s = s.
Proof.
  destruct s as [|c s]; simpl; [done|].
  intros [Hc _]%andb_true_iff. by apply negb_true_iff in Hc as ->.
Qed.

Lemma rstrip_id s :
  string_forall (λ c, negb (Py.isspace c)) s = true → Py.rstrip s = s.
Proof.
  induction s as [|c s IH]; simpl; [done|].
  intros [Hc Hs]%andb_true_iff. rewrite (IH Hs).
  apply negb_true_iff in Hc as ->. by destruct s.
Qed.

Lemma strip_id s :
  string_forall (λ c, negb (Py.isspace c)) s = true → Py.strip s = s.
Proof. intros H. unfold Py.strip. by rewrite (lstrip_id _ H), rstrip_id. Qed.

Lemma split_on_nonnil p s : Py.split_on p s ≠ [].
Proof.
  induction s as [|c s IH]; simpl; [done|].
  destruct (p c); [done|]. by destruct (Py.split_on p s).
Qed.

(** The pieces of a split keep what holds of every character. *)
Lemma split_on_forall p q s :
  string_forall q s = true →
  Forall (λ w, string_forall q w = true) (Py.split_on p s).
Proof.
  induction s as [|c s IH]; simpl.
  - by repeat constructor.
  - intros [Hc Hs]%andb_true_iff. specialize (IH Hs).
    destruct (p c); [by constructor|].
    destruct (Py.split_on p s) as [|w ws]; simpl.
    + repeat constructor. simpl. by rewrite Hc.
    + inversion_clear IH. constructor; [|done]. simpl. by rewrite Hc.
Qed.

(** No piece of a split holds a character it was cut at. *)
Lemma split_on_pieces p s :
  Forall (λ w, string_forall (λ c, negb (p c)) w = true) (Py.split_on p s).
Proof.
  induction s as [|c s IH]; simpl.
  - by repeat constructor.
  - destruct (p c) eqn:Hc; [by constructor|].
    destruct (Py.split_on p s) as [|w ws]; simpl.
    + repeat constructor. simpl. by rewrite Hc.
    + inversion_clear IH. constructor; [|done]. simpl. by rewrite Hc.
Qed.

(** A string without cut characters is the only piece of its split. *)
Lemma split_on_id p s :
  string_forall (λ c, negb (p c)) s = true → Py.split_on p s = [s].
Proof.
  induction s as [|c s IH]; simpl; [done|].
  intros [Hc Hs]%andb_true_iff. apply negb_true_iff in Hc as ->.
  by rewrite (IH Hs).
Qed.

Lemma split_on_app_sep p s c t :
  string_forall (λ c, negb (p c)) s = true → p c = true →
  Py.split_on p (s +:+ String c t) = s :: Py.split_on p t.
Proof.
  intros Hs Hc. induction s as [|c' s IH].
  - rewrite string_app_nil. simpl. by rewrite Hc.
  - rewrite string_app_cons. simpl in *.
    apply andb_true_iff in Hs as [Hc' Hs]. apply negb_true_iff in Hc' as ->.
    by rewrite (IH Hs).
Qed.

Lemma split_ws_tokens s :
  Forall (λ w, string_forall (λ c, negb (Py.isspace c)) w = true) (Py.split_ws s).
Proof.
  unfold Py.split_ws. apply Forall_forall. intros w [_ Hw]%list_elem_of_filter.
  revert w Hw. apply Forall_forall, split_on_pieces.
Qed.

Lemma split_ws_forall q s :
  string_forall q s = true →
  Forall (λ w, string_forall q w = true) (Py.split_ws s).
Proof.
  intros H. unfold Py.split_ws. apply Forall_forall.
  intros w [_ Hw]%list_elem_of_filter.
  revert w Hw. by apply Forall_forall, split_on_forall.
Qed.

(** The tokens of a field are not changed by the [strip] applied to each. *)
Lemma strip_split_ws s : Py.strip <$> Py.split_ws s = Py.split_ws s.
Proof.
  pose proof (split_ws_tokens s) as H.
  induction H as [|w ws Hw _ IH]; [done|].
  by rewrite fmap_cons, (strip_id _ Hw), IH.
Qed.

Lemma lower_char_not_upper c : Py.isupper (Py.lower_char c) = false.
Proof. by destruct c as [[] [] [] [] [] [] [] []]. Qed.

Lemma lower_no_upper s :
  string_forall (λ c, negb (Py.isupper c)) (Py.lower s) = true.
Proof.
  induction s as [|c s IH]; simpl; [done|].
  by rewrite lower_char_not_upper, IH.
Qed.

Lemma lower_id s :
  string_forall (λ c, negb (Py.isupper c)) s = true → Py.lower s = s.
Proof.
  induction s as [|c s IH]; simpl; [done|].
  intros [Hc Hs]%andb_true_iff. rewrite (IH Hs). unfold Py.lower_char.
  by apply negb_true_iff in Hc as ->.
Qed.

Lemma lower_idemp s : Py.lower (Py.lower s) = Py.lower s.
Proof. apply lower_id, lower_no_upper. Qed.

End StringFacts.

(** ** The access file: how lines act on the table *)

Section AccessFacts.

Context {V : Type} (accounts : gmap string V).

Implicit Types (acl : gmap string (gset string)) (log : list log_record).
Implicit Types (st : gmap string (gset string) * list log_record).

Lemma elem_of_keys {W} (m : gmap string W) (u : string) : u ∈ keys m ↔ u ∈ dom m.
Proof.
  unfold keys. rewrite elem_of_dom, list_elem_of_fmap. split.
  - intros [[k v] [-> H%elem_of_map_to_list]]. by exists v.
  - intros [v H]. exists (u, v). split; [done|]. by apply elem_of_map_to_list.
Qed.

Lemma rule_effect_idemp b (X : gset string) ops :
  rule_effect b (rule_effect b X ops) ops = rule_effect b X ops.
Proof. destruct b; simpl; set_solver. Qed.

Lemma apply_rule_cons b ops u0 us acl log :
  apply_rule b ops (u0 :: us) (acl, log) =
  apply_rule b ops us
    (<[u0 := rule_effect b (default ∅ (acl !! u0)) ops]> acl,
     log ++ [LogRecord DEBUG
               (if b then "Granting %s to %s." else "Revoking %s from %s.")
               [join_ops ops; u0]]).
Proof. by destruct b. Qed.

(** One rule replaces the set of each listed user by the union with, or
    the difference from, the operations of the rule, and touches no
    other user. *)
Lemma apply_rule_lookup b ops us st u :
  (apply_rule b ops us st).1 !! u =
    if decide (u ∈ us)
    then Some (rule_effect b (default ∅ (st.1 !! u)) ops)
    else st.1 !! u.
Proof.
  revert st. induction us as [|u0 us IH]; intros [acl log].
  - by rewrite decide_False by set_solver.
  - rewrite apply_rule_cons, IH. simpl.
    destruct (decide (u = u0)) as [->|Hne].
    + rewrite lookup_insert_eq. simpl. rewrite rule_effect_idemp.
      rewrite (decide_True (P := u0 ∈ u0 :: us)) by set_solver.
      by destruct (decide (u0 ∈ us)).
    + rewrite lookup_insert_ne by done.
      destruct (decide (u ∈ us)).
      * by rewrite decide_True by set_solver.
      * by rewrite decide_False by set_solver.
Qed.

Lemma access_line_rule st line operations users allowed b :
  blank_or_comment line = false →
  access_fields line = inr (operations, users, allowed) →
  allow_deny allowed = inr b →
  access_line accounts st line =
    apply_rule b (rule_operations operations) (rule_users accounts users) st.
Proof. intros Hb Hf Ha. unfold access_line. by rewrite Hb, Hf, Ha. Qed.

Lemma access_line_lookup st line operations users allowed b u :
  blank_or_comment line = false →
  access_fields line = inr (operations, users, allowed) →
  allow_deny allowed = inr b →
  (access_line accounts st line).1 !! u =
    if decide (u ∈ rule_users accounts users)
    then Some (rule_effect b (default ∅ (st.1 !! u)) (rule_operations operations))
    else st.1 !! u.
Proof.
  intros Hb Hf Ha. rewrite (access_line_rule _ _ _ _ _ _ Hb Hf Ha).
  apply apply_rule_lookup.
Qed.

Lemma query_rule_effect acl b ops u c (X : gset string) :
  acl !! u = Some (rule_effect b X ops) → c ∈ ops → query acl u c = b.
Proof.
  intros Hu Hc. unfold query. rewrite Hu. simpl.
  destruct b; simpl; [apply bool_decide_eq_true | apply bool_decide_eq_false];
    set_solver.
Qed.

(** A line either leaves the set of [u] alone, or is a rule that reaches
    [u] through the keyword or by naming it. *)
Lemma access_line_cases st line u :
  (access_line accounts st line).1 !! u = st.1 !! u ∨
  (uses_all line = true ∧ u ∈ dom accounts) ∨
  lists_user u line = true.
Proof.
  unfold access_line, uses_all, lists_user.
  destruct (blank_or_comment line); [by left|]. simpl.
  destruct (access_fields line) as [e|[[operations users] allowed]]; [by left|].
  destruct (allow_deny allowed) as [e|b]; [by left|].
  rewrite apply_rule_lookup. unfold rule_users.
  destruct (decide (users = "all")) as [->|Hne].
  - destruct (decide (u ∈ keys accounts)) as [Hu|]; [|by left].
    right; left. split; [done|]. by apply elem_of_keys.
  - destruct (decide (u ∈ Py.strip <$> Py.split_ws users)) as [Hu|]; [|by left].
    right; right. rewrite bool_decide_eq_true_2 by done.
    by rewrite bool_decide_eq_true_2.
Qed.

Lemma access_lines_cases lines st u :
  (foldl (access_line accounts) st lines).1 !! u = st.1 !! u ∨
  (existsb uses_all lines = true ∧ u ∈ dom accounts) ∨
  existsb (lists_user u) lines = true.
Proof.
  revert st. induction lines as [|line lines IH]; intros st; simpl; [by left|].
  destruct (IH (access_line accounts st line)) as [->|[[Ha Hu]|Hl]].
  - destruct (access_line_cases st line u) as [->|[[Ha Hu]|Hl]].
    + by left.
    + right; left. by rewrite Ha.
    + right; right. by rewrite Hl.
  - right; left. by rewrite Ha, orb_true_r.
  - right; right. by rewrite Hl, orb_true_r.
Qed.

Lemma load_access_file_acl content :
  (load_access_file (Some content) accounts).1 =
  (foldl (access_line accounts) (∅, []) (Py.readlines content)).1.
Proof.
  unfold load_access_file.
  by destruct (foldl (access_line accounts) (∅, []) (Py.readlines content)).
Qed.

Lemma access_line_touch st line operations users allowed b u c :
  blank_or_comment line = false →
  access_fields line = inr (operations, users, allowed) →
  allow_deny allowed = inr b →
  u ∈ rule_users accounts users →
  c ∈ rule_operations operations →
  query (access_line accounts st line).1 u c = b.
Proof.
  intros Hb Hf Ha Hu Hc.
  eapply query_rule_effect; [|done].
  by rewrite (access_line_lookup _ _ _ _ _ _ _ Hb Hf Ha), decide_True.
Qed.

Lemma access_line_untouched st line u c :
  touches accounts u c line = false →
  query (access_line accounts st line).1 u c = query st.1 u c.
Proof.
  unfold touches, access_line.
  destruct (blank_or_comment line); [done|]. simpl.
  destruct (access_fields line) as [e|[[operations users] allowed]]; [done|].
  destruct (allow_deny allowed) as [e|b]; [done|].
  intros H. unfold query. rewrite apply_rule_lookup.
  destruct (decide (u ∈ rule_users accounts users)) as [Hu|]; [|done].
  rewrite bool_decide_eq_true_2 in H by done. simpl in H.
  apply bool_decide_eq_false in H. simpl.
  apply bool_decide_ext. destruct b; simpl; set_solver.
Qed.

Lemma access_lines_untouched lines st u c :
  forallb (λ line, negb (touches accounts u c line)) lines = true →
  query (foldl (access_line accounts) st lines).1 u c = query st.1 u c.
Proof.
  revert st. induction lines as [|line lines IH]; intros st; simpl; [done|].
  intros [Hl Hls]%andb_true_iff. apply negb_true_iff in Hl.
  by rewrite (IH _ Hls), access_line_untouched.
Qed.

(** The last line that lists both [u] and [c] decides the answer. *)
Lemma access_lines_last_touch content l1 line l2 operations users allowed b u c :
  Py.readlines content = l1 ++ line :: l2 →
  blank_or_comment line = false →
  access_fields line = inr (operations, users, allowed) →
  allow_deny allowed = inr b →
  u ∈ rule_users accounts users →
  c ∈ rule_operations operations →
  forallb (λ line', negb (touches accounts u c line')) l2 = true →
  query (load_access_file (Some content) accounts).1 u c = b.
Proof.
  intros Hlines Hb Hf Ha Hu Hc Hl2.
  rewrite load_access_file_acl, Hlines, foldl_app. simpl.
  rewrite (access_lines_untouched _ _ _ _ Hl2).
  by eapply access_line_touch.
Qed.

(** The fields of a rule line hold no upper-case letter. *)
Lemma access_fields_lower line operations users allowed :
  access_fields line = inr (operations, users, allowed) →
  string_forall (λ c, negb (Py.isupper c)) operations = true ∧
  string_forall (λ c, negb (Py.isupper c)) users = true.
Proof.
  unfold access_fields.
  destruct (Py.split ":" line) as [|a [|b [|c [|d l]]]]; simpl; try done.
  intros [= <- <- <-].
  split; apply strip_forall, lower_no_upper.
Qed.

Lemma listed_user_lower u line :
  lists_user u line = true → Py.lower u = u.
Proof.
  unfold lists_user. intros [_ H]%andb_true_iff.
  destruct (access_fields line) as [e|[[operations users] allowed]] eqn:Hf; [done|].
  destruct (allow_deny allowed); [done|].
  apply andb_true_iff in H as [_ Hu%bool_decide_eq_true].
  apply access_fields_lower in Hf as [_ Hl].
  rewrite strip_split_ws in Hu. apply lower_id.
  pose proof (split_ws_forall _ _ Hl) as Hall.
  by apply (proj1 (Forall_forall _ _) Hall).
Qed.

End AccessFacts.

(** ** The access file: the properties of the specification *)

(** C1. The lines of the access file are folded from top to bottom. A rule
    line with [allow] replaces the set of each user it lists by the union
    with its operations, one with [deny] by the difference, and leaves the
    other users alone; whatever the earlier lines did, the answer for a
    user and a command is the one of the last line that lists both. For
    the rules [all : bob : allow] then [report : bob : deny], bob is denied
    [report] and allowed [check]. *)
Theorem load_access_file_ordered_fold {V} (accounts : gmap string V)
    (content : string) (l1 : list string) (line : string) (l2 : list string)
    (operations users allowed : string) (b : bool) (u c : string) :
  Py.readlines content = l1 ++ line :: l2 →
  blank_or_comment line = false →
  access_fields line = inr (operations, users, allowed) →
  allow_deny allowed = inr b →
  u ∈ rule_users accounts users →
  c ∈ rule_operations operations →
  forallb (λ line', negb (touches accounts u c line')) l2 = true →
  (load_access_file (Some content) accounts).1 =
    (foldl (access_line accounts) (∅, []) (l1 ++ line :: l2)).1 ∧
  (∀ st u',
     (access_line accounts st line).1 !! u' =
       if decide (u' ∈ rule_users accounts users)
       then Some (if b
                  then default ∅ (st.1 !! u') ∪ list_to_set (rule_operations operations)
                  else default ∅ (st.1 !! u') ∖ list_to_set (rule_operations operations))
       else st.1 !! u') ∧
  query (load_access_file (Some content) accounts).1 u c = b ∧
  query (load_access_file (Some precedence_rules) accounts).1 "bob" "report" = false ∧
  query (load_access_file (Some precedence_rules) accounts).1 "bob" "check" = true.
Proof.
  intros Hlines Hb Hf Ha Hu Hc Hl2. split_and!.
  - by rewrite load_access_file_acl, Hlines.
  - intros st u'. rewrite (access_line_lookup _ _ _ _ _ _ _ u' Hb Hf Ha).
    by destruct b.
  - by eapply access_lines_last_touch.
  - apply (access_lines_last_touch accounts precedence_rules
             ["all : bob : allow" +:+ nl] ("report : bob : deny" +:+ nl) []
             "report" "bob" "deny"); try done.
    all: vm_compute; set_solver.
  - apply (access_lines_last_touch accounts precedence_rules
             [] ("all : bob : allow" +:+ nl) ["report : bob : deny" +:+ nl]
             "all" "bob" "allow"); try done.
    all: vm_compute; set_solver.
Qed.

Lemma load_access_file_ordered_fold_witness :
  query (load_access_file
           (Some ("all : all : allow" +:+ nl +:+ "check ping : carol dave : deny" +:+ nl +:+
                  "report : bob : allow" +:+ nl))
           (<["carol" := "k"]> ∅)).1 "carol" "ping" = false.
Proof.
  refine (proj1 (proj2 (proj2
    (load_access_file_ordered_fold (<["carol" := "k"]> ∅)
       ("all : all : allow" +:+ nl +:+ "check ping : carol dave : deny" +:+ nl +:+
        "report : bob : allow" +:+ nl)
       ["all : all : allow" +:+ nl] ("check ping : carol dave : deny" +:+ nl)
       ["report : bob : allow" +:+ nl] "check ping" "carol dave" "deny" false
       "carol" "ping" _ _ _ _ _ _ _)))).
  - reflexivity.
  - reflexivity.
  - reflexivity.
  - reflexivity.
  - vm_compute. set_solver.
  - vm_compute. set_solver.
  - vm_compute. reflexivity.
Defined.

(** C4. On a rule line whose users field is the keyword [all], the users
    the rule is applied to are exactly the usernames of the accounts given
    to the loader: the sets of those users are replaced, no other entry is
    touched, and the anonymous user is not among them unless it is an
    account. Over a whole file, the anonymous user gets an entry only from
    a line that names it or when it is one of the accounts. *)
Theorem all_expands_to_known_accounts {V} (accounts : gmap string V)
    (st : gmap string (gset string) * list log_record) (line : string)
    (operations allowed : string) (b : bool) (u content : string) :
  blank_or_comment line = false →
  access_fields line = inr (operations, "all", allowed) →
  allow_deny allowed = inr b →
  (u ∈ rule_users accounts "all" ↔ u ∈ dom accounts) ∧
  (access_line accounts st line).1 !! u =
    (if decide (u ∈ dom accounts)
     then Some (rule_effect b (default ∅ (st.1 !! u)) (rule_operations operations))
     else st.1 !! u) ∧
  (anonymous_user ∉ dom accounts →
   (access_line accounts st line).1 !! anonymous_user = st.1 !! anonymous_user) ∧
  (anonymous_user ∈ dom (load_access_file (Some content) accounts).1 →
   anonymous_user ∈ dom accounts ∨
   existsb (lists_user anonymous_user) (Py.readlines content) = true).
Proof.
  intros Hb Hf Ha.
  assert (Hall : ∀ v, v ∈ rule_users accounts "all" ↔ v ∈ dom accounts).
  { intros v. unfold rule_users. rewrite decide_True by done. apply elem_of_keys. }
  assert (Hline : ∀ v, (access_line accounts st line).1 !! v =
    if decide (v ∈ dom accounts)
    then Some (rule_effect b (default ∅ (st.1 !! v)) (rule_operations operations))
    else st.1 !! v).
  { intros v. rewrite (access_line_lookup _ _ _ _ _ _ _ v Hb Hf Ha).
    destruct (decide (v ∈ dom accounts)) as [Hv|Hv].
    - by rewrite decide_True by by apply Hall.
    - by rewrite decide_False by by rewrite Hall. }
  split_and!; [apply Hall|apply Hline| |].
  - intros Hanon. by rewrite Hline, decide_False.
  - rewrite load_access_file_acl, elem_of_dom.
    destruct (access_lines_cases accounts (Py.readlines content) (∅, [])
                anonymous_user) as [->|[[_ Hin]|Hl]].
    + simpl. rewrite lookup_empty. by intros [? ?].
    + by left.
    + by right.
Qed.

Lemma all_expands_to_known_accounts_witness :
  (load_access_file (Some ("all : all : allow" +:+ nl)) (<["bob" := "k"]> ∅)).1
    !! anonymous_user = None.
Proof.
  rewrite load_access_file_acl.
  refine (proj1 (proj2 (proj2
    (all_expands_to_known_accounts (<["bob" := "k"]> ∅) (∅, [])
       ("all : all : allow" +:+ nl) "all" "allow" true "bob" "" _ _ _))) _).
  - reflexivity.
  - reflexivity.
  - reflexivity.
  - vm_compute. set_solver.
Defined.

(** C5. When the rules file does not exist the table is the default one:
    the anonymous user may use exactly check, report, ping, pong and info,
    so it is allowed [report] and denied [whitelist], and no other user is
    allowed anything. *)
Theorem load_access_file_default {V} (accounts : gmap string V) :
  (load_access_file None accounts).1 =
    {[ anonymous_user := list_to_set ["check"; "report"; "ping"; "pong"; "info"] ]} ∧
  (∀ u c, query (load_access_file None accounts).1 u c = true ↔
          u = "anonymous" ∧ c ∈ ["check"; "report"; "ping"; "pong"; "info"]) ∧
  query (load_access_file None accounts).1 "anonymous" "report" = true ∧
  query (load_access_file None accounts).1 "anonymous" "whitelist" = false.
Proof.
  split_and!; [done| |done..].
  intros u c. unfold query, load_access_file. simpl.
  rewrite bool_decide_eq_true.
  destruct (decide (u = anonymous_user)) as [->|Hne].
  - rewrite lookup_insert_eq. unfold anonymous_user. simpl. set_solver.
  - rewrite lookup_insert_ne, lookup_empty by done. simpl.
    unfold anonymous_user in Hne. set_solver.
Qed.

(** C8. The operations of a rule line are not checked against the command
    vocabulary: when the operations field is not the keyword [all], each
    of its whitespace-separated tokens is granted to ([allow]) or revoked
    from ([deny]) every listed user as it stands, so an allow line with a
    token outside check, report, ping, pong, info and whitelist puts that
    token in the table. *)
Theorem load_access_file_no_vocabulary_check {V} (accounts : gmap string V)
    (st : gmap string (gset string) * list log_record) (line : string)
    (operations users allowed : string) (b : bool) (u tok : string) :
  blank_or_comment line = false →
  access_fields line = inr (operations, users, allowed) →
  allow_deny allowed = inr b →
  operations ≠ "all" →
  u ∈ rule_users accounts users →
  tok ∈ Py.split_ws operations →
  query (access_line accounts st line).1 u tok = b ∧
  query (load_access_file (Some ("frobnicate : bob : allow" +:+ nl)) accounts).1
        "bob" "frobnicate" = true ∧
  "frobnicate" ∉ all_operations.
Proof.
  intros Hb Hf Ha Hne Hu Htok. split_and!.
  - eapply access_line_touch; [done..|].
    unfold rule_operations. rewrite decide_False by done.
    by rewrite strip_split_ws.
  - apply (access_lines_last_touch accounts _ [] ("frobnicate : bob : allow" +:+ nl) []
             "frobnicate" "bob" "allow"); try done.
    all: vm_compute; set_solver.
  - unfold all_operations. set_solver.
Qed.

Lemma load_access_file_no_vocabulary_check_witness :
  query (access_line (∅ : gmap string string)
           (<["eve" := {["check"; "launch"]}]> ∅, [])
           ("report launch : eve : deny" +:+ nl)).1 "eve" "launch" = false.
Proof.
  refine (proj1
    (load_access_file_no_vocabulary_check (∅ : gmap string string)
       (<["eve" := {["check"; "launch"]}]> ∅, [])
       ("report launch : eve : deny" +:+ nl) "report launch" "eve" "deny" false
       "eve" "launch" _ _ _ _ _ _)).
  - reflexivity.
  - reflexivity.
  - reflexivity.
  - discriminate.
  - vm_compute. set_solver.
  - vm_compute. set_solver.
Defined.

(** ** The server accounts file: how lines act on the mapping *)

Section PasswdFacts.

Implicit Types (st : gmap string string * list log_record).

Lemma passwd_line_log_irrel (m : gmap string string) log1 log2 line :
  (passwd_line (m, log1) line).1 = (passwd_line (m, log2) line).1.
Proof.
  unfold passwd_line. destruct (blank_or_comment line); [done|].
  by destruct (unpack2 (Py.split ":" line)) as [e|[user key]].
Qed.

Lemma passwd_lines_log_irrel lines (m : gmap string string) log1 log2 :
  (foldl passwd_line (m, log1) lines).1 = (foldl passwd_line (m, log2) lines).1.
Proof.
  revert m log1 log2. induction lines as [|line lines IH]; intros m log1 log2; [done|].
  simpl. pose proof (passwd_line_log_irrel m log1 log2 line) as H.
  destruct (passwd_line (m, log1) line) as [m1 k1].
  destruct (passwd_line (m, log2) line) as [m2 k2].
  simpl in H. subst m2. apply IH.
Qed.

Lemma passwd_line_log_mono st line x :
  x ∈ st.2 → x ∈ (passwd_line st line).2.
Proof.
  intros Hx. unfold passwd_line. destruct (blank_or_comment line); [done|].
  destruct (unpack2 (Py.split ":" line)) as [e|[user key]]; simpl;
    apply elem_of_app; by left.
Qed.

Lemma passwd_lines_log_mono lines st x :
  x ∈ st.2 → x ∈ (foldl passwd_line st lines).2.
Proof.
  revert st. induction lines as [|line lines IH]; intros st Hx; [done|].
  simpl. by apply IH, passwd_line_log_mono.
Qed.

Lemma unpack2_length l : length l ≠ 2%nat → ∃ e, unpack2 l = inl e.
Proof. destruct l as [|a [|b [|c l]]]; simpl; by eauto. Qed.

(** A line that does not split into two parts leaves the mapping as it
    is. *)
Lemma passwd_line_skip st line :
  length (Py.split ":" line) ≠ 2%nat → (passwd_line st line).1 = st.1.
Proof.
  intros [e He]%unpack2_length. unfold passwd_line.
  destruct (blank_or_comment line); [done|]. by rewrite He.
Qed.

Lemma passwd_line_warn st line :
  blank_or_comment line = false →
  length (Py.split ":" line) ≠ 2%nat →
  passwd_line st line =
    (st.1, st.2 ++ [LogRecord WARNING "Invalid accounts line: %r" [line]]).
Proof.
  intros Hb [e He]%unpack2_length. unfold passwd_line. by rewrite Hb, He.
Qed.

Lemma passwd_line_store st line user key :
  blank_or_comment line = false →
  Py.split ":" line = [user; key] →
  (passwd_line st line).1 = <[Py.strip user := Py.strip key]> st.1.
Proof. intros Hb Hs. unfold passwd_line. by rewrite Hb, Hs. Qed.

Lemma passwd_line_other st line u :
  passwd_user line ≠ Some u → (passwd_line st line).1 !! u = st.1 !! u.
Proof.
  unfold passwd_user, passwd_line. destruct (blank_or_comment line); [done|].
  destruct (unpack2 (Py.split ":" line)) as [e|[user key]]; [done|].
  intros Hne. simpl. rewrite lookup_insert_ne; [done|congruence].
Qed.

Lemma passwd_lines_other lines st u :
  forallb (λ line, negb (bool_decide (passwd_user line = Some u))) lines = true →
  (foldl passwd_line st lines).1 !! u = st.1 !! u.
Proof.
  revert st. induction lines as [|line lines IH]; intros st; simpl; [done|].
  intros [Hl Hls]%andb_true_iff.
  apply negb_true_iff, bool_decide_eq_false in Hl.
  by rewrite (IH _ Hls), passwd_line_other.
Qed.

Lemma load_passwd_file_accounts content :
  (load_passwd_file (Some content)).1 =
  (foldl passwd_line (∅, []) (Py.readlines content)).1.
Proof.
  unfold load_passwd_file.
  by destruct (foldl passwd_line (∅, []) (Py.readlines content)).
Qed.

Lemma load_passwd_file_log content x :
  x ∈ (foldl passwd_line (∅, []) (Py.readlines content)).2 →
  x ∈ (load_passwd_file (Some content)).2.
Proof.
  unfold load_passwd_file.
  destruct (foldl passwd_line (∅, []) (Py.readlines content)). simpl.
  intros Hx. apply elem_of_app. by left.
Qed.

End PasswdFacts.

(** ** The server accounts file: the properties of the specification *)

(** C7. A line of the accounts file that does not split into exactly two
    parts at the colons is skipped without an exception: the accounts
    loaded are those of the file without that line, so the line adds no
    entry and the other lines are loaded all the same, and when the line
    reached the split (it is neither blank nor a comment) a warning that
    carries it is logged. A file holding the line [onlyonepart] between two
    good lines yields the two accounts, and a missing file yields the empty
    mapping. *)
Theorem load_passwd_file_skips_malformed
    (content content' : string) (l1 : list string) (line : string) (l2 : list string) :
  Py.readlines content = l1 ++ line :: l2 →
  Py.readlines content' = l1 ++ l2 →
  length (Py.split ":" line) ≠ 2%nat →
  (load_passwd_file (Some content)).1 = (load_passwd_file (Some content')).1 ∧
  (blank_or_comment line = false →
   LogRecord WARNING "Invalid accounts line: %r" [line]
     ∈ (load_passwd_file (Some content)).2) ∧
  (load_passwd_file (Some ("alice : k1" +:+ nl +:+ "onlyonepart" +:+ nl +:+
                           "bob : k2" +:+ nl))).1
    = <["bob" := "k2"]> (<["alice" := "k1"]> ∅) ∧
  (load_passwd_file None).1 = ∅.
Proof.
  intros Hc Hc' Hlen. split_and!; [| |done..].
  - rewrite !load_passwd_file_accounts, Hc, Hc', !foldl_app. simpl.
    pose proof (passwd_line_skip (foldl passwd_line (∅, []) l1) line Hlen) as H.
    destruct (passwd_line (foldl passwd_line (∅, []) l1) line) as [m log].
    destruct (foldl passwd_line (∅, []) l1) as [m0 log0].
    simpl in H. subst m0. apply passwd_lines_log_irrel.
  - intros Hb. apply load_passwd_file_log. rewrite Hc, foldl_app. simpl.
    apply passwd_lines_log_mono. rewrite passwd_line_warn by done. simpl.
    apply elem_of_app. right. by apply list_elem_of_singleton.
Qed.

Lemma load_passwd_file_skips_malformed_witness :
  (load_passwd_file (Some ("alice : k1" +:+ nl +:+ "a:b:c" +:+ nl +:+ "bob : k2"))).1 =
  (load_passwd_file (Some ("alice : k1" +:+ nl +:+ "bob : k2"))).1.
Proof.
  refine (proj1
    (load_passwd_file_skips_malformed
       ("alice : k1" +:+ nl +:+ "a:b:c" +:+ nl +:+ "bob : k2")
       ("alice : k1" +:+ nl +:+ "bob : k2")
       ["alice : k1" +:+ nl] ("a:b:c" +:+ nl) ["bob : k2"] _ _ _)).
  - reflexivity.
  - reflexivity.
  - vm_compute. lia.
Defined.

(** C9. When several well-formed lines of the accounts file define the
    same username, the key kept is the one of the last of them: a line
    [user : key] that no later line redefines gives the mapping the entry
    [user.strip()] with value [key.strip()], whatever came before it; and
    the mapping holds each username once. *)
Theorem load_passwd_file_last_wins
    (content : string) (l1 : list string) (line : string) (l2 : list string)
    (user key : string) :
  Py.readlines content = l1 ++ line :: l2 →
  blank_or_comment line = false →
  Py.split ":" line = [user; key] →
  forallb (λ line', negb (bool_decide (passwd_user line' = Some (Py.strip user)))) l2
    = true →
  (load_passwd_file (Some content)).1 !! Py.strip user = Some (Py.strip key) ∧
  NoDup (keys (load_passwd_file (Some content)).1).
Proof.
  intros Hc Hb Hs Hl2. split.
  - rewrite load_passwd_file_accounts, Hc, foldl_app. simpl.
    rewrite (passwd_lines_other _ _ _ Hl2), (passwd_line_store _ _ _ _ Hb Hs).
    apply lookup_insert_eq.
  - apply NoDup_fst_map_to_list.
Qed.

Lemma load_passwd_file_last_wins_witness :
  (load_passwd_file (Some ("bob : old" +:+ nl +:+ "eve:x" +:+ nl +:+ " bob:new " +:+ nl +:+
                           "# bob : commented" +:+ nl +:+ "eve : y"))).1
    !! "bob" = Some "new".
Proof.
  refine (proj1
    (load_passwd_file_last_wins
       ("bob : old" +:+ nl +:+ "eve:x" +:+ nl +:+ " bob:new " +:+ nl +:+
        "# bob : commented" +:+ nl +:+ "eve : y")
       ["bob : old" +:+ nl; "eve:x" +:+ nl] (" bob:new " +:+ nl)
       ["# bob : commented" +:+ nl; "eve : y"] " bob" ("new " +:+ nl) _ _ _ _)).
  - reflexivity.
  - reflexivity.
  - reflexivity.
  - reflexivity.
Defined.

(** ** Upper-case usernames *)

(** C10. The accounts loader stores a username as written, stripped of
    surrounding whitespace only, while the access loader lower-cases the
    users field of every rule. So for a name holding an upper-case letter
    no line lists it explicitly: a rule line whose users field is not the
    keyword [all] leaves the entry of that name as it was, and in a loaded
    table the name has an entry only if some line used the keyword and the
    name is one of the accounts. With the account [Bob], the rule
    [check : Bob : allow] makes an entry for [bob] and none for [Bob];
    [check : all : allow] makes the entry for [Bob]. *)
Theorem uppercase_account_only_through_all {V} (accounts : gmap string V)
    (name : string) :
  string_forall (λ c, negb (Py.isupper c)) name = false →
  (∀ st line user key,
     blank_or_comment line = false → Py.split ":" line = [user; key] →
     (passwd_line st line).1 = <[Py.strip user := Py.strip key]> st.1) ∧
  (∀ line, lists_user name line = false) ∧
  (∀ st line, uses_all line = false →
     (access_line accounts st line).1 !! name = st.1 !! name) ∧
  (∀ content,
     name ∈ dom (load_access_file (Some content) accounts).1 →
     existsb uses_all (Py.readlines content) = true ∧ name ∈ dom accounts) ∧
  mixed_case_accounts = <["Bob" := "secret"]> ∅ ∧
  (load_access_file (Some ("check : Bob : allow" +:+ nl)) mixed_case_accounts).1
    = <["bob" := {["check"]}]> ∅ ∧
  (load_access_file (Some ("check : all : allow" +:+ nl)) mixed_case_accounts).1
    = <["Bob" := {["check"]}]> ∅.
Proof.
  intros Hname.
  assert (Hnot : ∀ line, lists_user name line = false).
  { intros line. destruct (lists_user name line) eqn:Hl; [|done].
    apply listed_user_lower in Hl.
    by rewrite <- Hl, lower_no_upper in Hname. }
  split_and!.
  - intros st line user key. apply passwd_line_store.
  - done.
  - intros st line Hall.
    destruct (access_line_cases accounts st line name) as [H|[[H _]|H]];
      [done|congruence|].
    by rewrite Hnot in H.
  - intros content. rewrite load_access_file_acl, elem_of_dom.
    destruct (access_lines_cases accounts (Py.readlines content) (∅, []) name)
      as [->|[H|H]].
    + simpl. rewrite lookup_empty. by intros [? ?].
    + done.
    + intros _. exfalso. revert H. generalize (Py.readlines content).
      intros lines. induction lines as [|line lines IH]; simpl; [done|].
      by rewrite Hnot.
  - by vm_compute.
  - apply map_eq. intros k. by vm_compute.
  - by vm_compute.
Qed.

Lemma uppercase_account_only_through_all_witness :
  lists_user "Bob" ("check : Bob : allow" +:+ nl) = false.
Proof.
  refine (proj1 (proj2
    (uppercase_account_only_through_all (∅ : gmap string string) "Bob" _))
    ("check : Bob : allow" +:+ nl)).
  reflexivity.
Defined.

(** ** The record codec: numbers and timestamps as text *)

Section CodecFacts.

Lemma isdigit_no_space c : Py.isdigit c = true → negb (Py.isspace c) = true.
Proof. by destruct c as [[] [] [] [] [] [] [] []]. Qed.

Lemma isdigit_no_comma c : Py.isdigit c = true → no_comma c = true.
Proof. by destruct c as [[] [] [] [] [] [] [] []]. Qed.

Lemma string_app_nil_r s : s +:+ EmptyString = s.
Proof. induction s as [|c s IH]; [done|]. by rewrite string_app_cons, IH. Qed.

Lemma string_app_assoc s t r : (s +:+ t) +:+ r = s +:+ (t +:+ r).
Proof. induction s as [|c s IH]; [done|]. by rewrite !string_app_cons, IH. Qed.

(** *** Decimal integers *)

Lemma string_of_uint_digits d :
  string_forall Py.isdigit (DecimalString.NilEmpty.string_of_uint d) = true.
Proof. induction d; simpl; by rewrite ?IHd. Qed.

Lemma string_of_uint_nonnil d :
  d ≠ Decimal.Nil →
  DecimalString.NilZero.string_of_uint d = DecimalString.NilEmpty.string_of_uint d.
Proof. by destruct d. Qed.

Lemma py_int_digits s d :
  string_forall Py.isdigit s = true →
  DecimalString.NilZero.uint_of_string s = Some d →
  py_int s = inr (Z.of_uint d).
Proof.
  intros Hs Hd. unfold py_int.
  rewrite strip_id by (eapply string_forall_impl; [apply isdigit_no_space|done]).
  destruct s as [|c s]; [done|].
  simpl in Hs. apply andb_true_iff in Hs as [Hc _].
  rewrite Hd.
  by destruct c as [[] [] [] [] [] [] [] []].
Qed.

Lemma py_str_pos p :
  py_str (Z.pos p) = DecimalString.NilEmpty.string_of_uint (Pos.to_uint p).
Proof.
  unfold py_str. simpl. apply string_of_uint_nonnil, DecimalPos.Unsigned.to_uint_nonnil.
Qed.

(** [int(str(n)) == n] *)
Lemma py_int_str n : 0 <= n → py_int (py_str n) = inr n.
Proof.
  intros Hn. destruct n as [|p|p]; [done| |lia].
  rewrite py_str_pos.
  rewrite (py_int_digits _ (Pos.to_uint p)).
  - f_equal. apply (DecimalZ.of_to (Z.pos p)).
  - apply string_of_uint_digits.
  - rewrite <- string_of_uint_nonnil by apply DecimalPos.Unsigned.to_uint_nonnil.
    apply DecimalString.NilZero.usu, DecimalPos.Unsigned.to_uint_nonnil.
Qed.

Lemma py_str_no_comma n : 0 <= n → string_forall no_comma (py_str n) = true.
Proof.
  intros Hn. destruct n as [|p|p]; [done| |lia].
  rewrite py_str_pos.
  eapply string_forall_impl; [apply isdigit_no_comma|apply string_of_uint_digits].
Qed.

(** *** Digits of fixed width *)

Lemma digit_char_spec k :
  0 <= k < 10 →
  Py.isdigit (digit_char k) = true ∧ digit_value (digit_char k) = k.
Proof.
  intros Hk.
  assert (k = 0 ∨ k = 1 ∨ k = 2 ∨ k = 3 ∨ k = 4 ∨ k = 5 ∨ k = 6 ∨ k = 7 ∨
          k = 8 ∨ k = 9) as Hcases by lia.
  repeat (destruct Hcases as [->|Hcases]; [done|]). by subst.
Qed.

Lemma zero_padded_digits w n : string_forall Py.isdigit (zero_padded w n) = true.
Proof.
  induction w as [|w IH]; [done|].
  cbn [zero_padded string_forall].
  rewrite IH, andb_true_r. apply digit_char_spec, Z.mod_pos_bound. lia.
Qed.

Lemma read_digits_zero_padded w acc n rest :
  read_digits w acc (zero_padded w n +:+ rest)
  = Some (acc * 10 ^ Z.of_nat w + n mod 10 ^ Z.of_nat w, rest).
Proof.
  revert acc. induction w as [|w IH]; intros acc.
  - cbn [zero_padded read_digits Z.of_nat]. rewrite string_app_nil.
    rewrite Z.pow_0_r, Z.mod_1_r. do 2 f_equal. lia.
  - cbn [zero_padded]. rewrite string_app_cons. cbn [read_digits].
    destruct (digit_char_spec ((n / 10 ^ Z.of_nat w) mod 10)) as [-> ->].
    { apply Z.mod_pos_bound. lia. }
    rewrite IH. do 2 f_equal.
    rewrite Nat2Z.inj_succ, Z.pow_succ_r by lia.
    rewrite (Z.mul_comm 10), Z.rem_mul_r by lia. lia.
Qed.

Lemma read_zero_padded w n rest :
  0 <= n < 10 ^ Z.of_nat w →
  read_digits w 0 (zero_padded w n +:+ rest) = Some (n, rest).
Proof.
  intros Hn. rewrite read_digits_zero_padded, Z.mod_small by done.
  do 2 f_equal.
Qed.

End CodecFacts.

(** ** The record codec: timestamps and whole records *)

Section RecordFacts.

Local Arguments zero_padded : simpl never.
Local Arguments read_digits : simpl never.

Lemma zero_padded_no_comma w n : string_forall no_comma (zero_padded w n) = true.
Proof.
  eapply string_forall_impl; [apply isdigit_no_comma|apply zero_padded_digits].
Qed.

Lemma expect_sep c rest : expect c (String c EmptyString +:+ rest) = Some rest.
Proof.
  rewrite string_app_cons, string_app_nil. simpl. by rewrite decide_True.
Qed.

Lemma days_in_month_le y m : days_in_month y m <= 31.
Proof. unfold days_in_month. repeat case_match; lia. Qed.

Lemma valid_datetime_ranges d :
  valid_datetime d →
  (1 <= year d <= 9999) ∧ (1 <= month d <= 12) ∧ (1 <= day d <= 31) ∧
  (0 <= hour d < 24) ∧ (0 <= minute d < 60) ∧ (0 <= second d < 60) ∧
  (0 <= microsecond d < 1000000).
Proof.
  unfold valid_datetime, valid_datetimeb.
  rewrite !andb_true_iff, !Z.leb_le, !Z.ltb_lt.
  pose proof (days_in_month_le (year d) (month d)). lia.
Qed.

Lemma datetime_str_no_comma d : string_forall no_comma (datetime_str d) = true.
Proof.
  unfold datetime_str. rewrite !string_forall_app, !zero_padded_no_comma.
  destruct (microsecond d =? 0); [done|].
  by rewrite string_forall_app, zero_padded_no_comma.
Qed.

Ltac read_field w bound :=
  rewrite (read_zero_padded w)
    by (change (10 ^ Z.of_nat w) with bound; lia);
  cbn [mbind option_bind].

Ltac read_sep := rewrite expect_sep; cbn [mbind option_bind].

(** Reading back the text of a timestamp gives the timestamp. *)
Lemma parse_datetime_str d :
  valid_datetime d → parse_datetime (datetime_str d) = Some d.
Proof.
  intros Hv.
  destruct (valid_datetime_ranges d Hv) as (Hy & Hmo & Hd & Hh & Hmi & Hs & Hus).
  unfold valid_datetime in Hv.
  destruct d as [y mo dd h mi s us].
  cbn [year month day hour minute second microsecond] in *.
  unfold parse_datetime, datetime_str.
  cbn [year month day hour minute second microsecond].
  read_field 4%nat 10000. read_sep.
  read_field 2%nat 100. read_sep.
  read_field 2%nat 100. read_sep.
  read_field 2%nat 100. read_sep.
  read_field 2%nat 100. read_sep.
  rewrite (read_digits_zero_padded 2).
  change (10 ^ Z.of_nat 2) with 100. rewrite Z.mod_small by lia.
  cbn [mbind option_bind]. rewrite Z.mul_0_l, Z.add_0_l.
  destruct (us =? 0) eqn:Hz.
  - apply Z.eqb_eq in Hz. subst us.
    cbn [mbind option_bind Py.nonempty]. by rewrite Hv.
  - rewrite string_app_cons, string_app_nil.
    rewrite decide_True by done.
    rewrite <- (string_app_nil_r (zero_padded 6 us)).
    read_field 6%nat 1000000. cbn [Py.nonempty]. by rewrite Hv.
Qed.

Lemma join_cons sep w w' ws :
  Py.join sep (w :: w' :: ws) = w +:+ sep +:+ Py.join sep (w' :: ws).
Proof. reflexivity. Qed.

(** Cutting a joined list at the separator gives the list back when no
    element holds the separator. *)
Lemma split_join sep l :
  l ≠ [] →
  Forall (λ w, string_forall (λ c, negb (bool_decide (c = sep))) w = true) l →
  Py.split sep (Py.join (String sep EmptyString) l) = l.
Proof.
  intros Hne Hl. unfold Py.split.
  induction Hl as [|w ws Hw Hws IH]; [done|].
  destruct ws as [|w' ws].
  - simpl. by apply (split_on_id (λ c, bool_decide (c = sep))).
  - rewrite join_cons, string_app_cons, string_app_nil.
    rewrite (split_on_app_sep (λ c, bool_decide (c = sep))); [|done|].
    + by rewrite IH.
    + by apply bool_decide_eq_true.
Qed.

End RecordFacts.

(** ** The record codec: the round trip *)

(** C2. Decoding the encoding of a valid record gives the record back. The
    encoding is the version marker [1] followed by the six fields, in the
    order report count, report entered, report updated, whitelist count,
    whitelist entered, whitelist updated, separated by commas: cut at the
    commas it has exactly these seven parts. *)
Theorem decode_encode_record (r : record) :
  valid_record r →
  decode_record (encode_record r) = inr r ∧
  encode_record r =
    "1," +:+ py_str (r_count r) +:+ "," +:+ datetime_str (r_entered r) +:+ "," +:+
    datetime_str (r_updated r) +:+ "," +:+ py_str (wl_count r) +:+ "," +:+
    datetime_str (wl_entered r) +:+ "," +:+ datetime_str (wl_updated r) ∧
  Py.split "," (encode_record r) =
    ["1"; py_str (r_count r); datetime_str (r_entered r); datetime_str (r_updated r);
     py_str (wl_count r); datetime_str (wl_entered r); datetime_str (wl_updated r)].
Proof.
  intros (Hrc & Hwc & Hre & Hru & Hwe & Hwu).
  assert (Hsplit : Py.split "," (encode_record r) =
    ["1"; py_str (r_count r); datetime_str (r_entered r); datetime_str (r_updated r);
     py_str (wl_count r); datetime_str (wl_entered r); datetime_str (wl_updated r)]).
  { unfold encode_record, record_as_str. apply split_join; [done|].
    repeat constructor;
      first [ done | by apply py_str_no_comma | apply datetime_str_no_comma ]. }
  split_and!; [|done|done].
  unfold decode_record. rewrite Hsplit.
  rewrite decide_True by done.
  rewrite !py_int_str, !parse_datetime_str by done.
  by destruct r.
Qed.

Lemma decode_encode_record_witness :
  decode_record (encode_record sample_record) = inr sample_record.
Proof.
  refine (proj1 (decode_encode_record sample_record _)).
  by vm_compute.
Defined.

(** ** The eviction sweep: what a pass does to each key *)

Section SweepFacts.

Context (now : datetime) (max_age : Z).

Implicit Types (st : gmap string string * list log_record).

Lemma swept_idemp stored :
  swept now max_age (swept now max_age stored) = swept now max_age stored.
Proof.
  destruct stored as [raw|]; simpl; [|done].
  destruct (decode_record raw) as [e|r] eqn:Hd; simpl; [by rewrite Hd|].
  destruct (expired now max_age r) eqn:He; simpl; [done|].
  by rewrite Hd, He.
Qed.

Lemma sweep_key_lookup st key k :
  (sweep_key now max_age st key).1 !! k =
    if decide (k = key) then swept now max_age (st.1 !! k) else st.1 !! k.
Proof.
  unfold sweep_key, swept. destruct (decide (k = key)) as [->|Hne].
  - destruct (st.1 !! key) as [raw|] eqn:Hk; [|done].
    destruct (decode_record raw) as [e|r]; [done|].
    destruct (expired now max_age r); [|done].
    simpl. apply lookup_delete_eq.
  - destruct (st.1 !! key) as [raw|]; [|done].
    destruct (decode_record raw) as [e|r]; [done|].
    destruct (expired now max_age r); [|done].
    simpl. by apply lookup_delete_ne.
Qed.

Lemma sweep_keys_lookup ks st k :
  (foldl (sweep_key now max_age) st ks).1 !! k =
    if decide (k ∈ ks) then swept now max_age (st.1 !! k) else st.1 !! k.
Proof.
  revert st. induction ks as [|key ks IH]; intros st.
  - by rewrite decide_False by set_solver.
  - cbn [foldl]. rewrite IH, sweep_key_lookup.
    destruct (decide (k = key)) as [->|Hne].
    + rewrite (decide_True (P := key ∈ key :: ks)) by set_solver.
      destruct (decide (key ∈ ks)); [apply swept_idemp|done].
    + destruct (decide (k ∈ ks)).
      * by rewrite decide_True by set_solver.
      * by rewrite decide_False by set_solver.
Qed.

(** After a pass every key of the store has been swept once. *)
Lemma sweep_lookup (db : gmap string string) k :
  (sweep now max_age db).1 !! k = swept now max_age (db !! k).
Proof.
  unfold sweep. rewrite sweep_keys_lookup. simpl.
  destruct (decide (k ∈ keys db)) as [|Hk]; [done|].
  rewrite elem_of_keys, elem_of_dom in Hk.
  destruct (db !! k) eqn:Hdb; [|done]. destruct Hk. by eexists.
Qed.

End SweepFacts.

(** ** The eviction sweep: the property of the specification *)

(** C3. After one full pass of the sweep with threshold [max_age] seconds,
    a key whose stored record has [now − max(r_updated, wl_updated)]
    greater than the threshold is gone from the store, and a key whose
    record is within the threshold is still there with the value it had. *)
Theorem sweep_evicts_stale_keeps_fresh (now : datetime) (max_age : Z)
    (db : gmap string string) (key raw : string) (r : record) :
  db !! key = Some raw →
  decode_record raw = inr r →
  (max_age * 1000000 <
     to_microseconds now
     - Z.max (to_microseconds (r_updated r)) (to_microseconds (wl_updated r)) →
   (sweep now max_age db).1 !! key = None) ∧
  (to_microseconds now
     - Z.max (to_microseconds (r_updated r)) (to_microseconds (wl_updated r))
     <= max_age * 1000000 →
   (sweep now max_age db).1 !! key = Some raw).
Proof.
  intros Hk Hd. rewrite sweep_lookup, Hk. simpl. rewrite Hd.
  unfold expired. split; intros Hage.
  - by rewrite (proj2 (Z.ltb_lt _ _)).
  - by rewrite (proj2 (Z.ltb_ge _ _)).
Qed.

(** [test_reorganize_older] and [test_reorganize_fresh]: a threshold of one
    day evicts the record, one of three days keeps it. *)
Lemma sweep_evicts_stale_keeps_fresh_witness :
  (sweep (Datetime 2024 3 1 8 0 0 0) (3600 * 24) test_store).1
    !! "2aedaac999d71421c9ee49b9d81f627a7bc570aa" = None ∧
  (sweep (Datetime 2024 3 1 8 0 0 0) (3600 * 24 * 3) test_store).1
    !! "2aedaac999d71421c9ee49b9d81f627a7bc570aa" = Some (encode_record test_record).
Proof.
  split.
  - refine (proj1
      (sweep_evicts_stale_keeps_fresh (Datetime 2024 3 1 8 0 0 0) (3600 * 24) test_store
         "2aedaac999d71421c9ee49b9d81f627a7bc570aa" (encode_record test_record)
         test_record _ _) _).
    + reflexivity.
    + reflexivity.
    + reflexivity.
  - refine (proj2
      (sweep_evicts_stale_keeps_fresh (Datetime 2024 3 1 8 0 0 0) (3600 * 24 * 3) test_store
         "2aedaac999d71421c9ee49b9d81f627a7bc570aa" (encode_record test_record)
         test_record _ _) _).
    + reflexivity.
    + reflexivity.
    + by vm_compute.
Defined.

(** ** The client accounts file: a port that is not an integer *)

(** C6. A line of the client accounts file whose port field is not an
    integer is expected to be logged and skipped. The loader logs the
    warning but goes on with the line: when the key material is accepted,
    the account is stored under the address made of the host and of the
    text of the port field. *)
Theorem load_accounts_keeps_bad_port {Salt Key Account : Type}
    (salt_truth : Salt → bool) (key_truth : Key → bool)
    (key_from_hexstr : string → exn + (Salt * Key))
    (mkAccount : string → Salt → Key → exn + Account)
    (lineno : nat) (orig_line : string)
    (st : gmap (string * port_value) Account * list log_record)
    (host port username key e : string) (salt : Salt) (k : Key) (account : Account) :
  negb (Py.nonempty (Py.strip orig_line)) || Py.startswith "#" (Py.strip orig_line)
    = false →
  unpack4 (Py.strip <$> Py.split ":" (Py.strip orig_line))
    = inr (host, port, username, key) →
  py_int port = inl (ValueError e) →
  key_from_hexstr key = inr (salt, k) →
  salt_truth salt || key_truth k = true →
  mkAccount username salt k = inr account →
  accounts_line salt_truth key_truth key_from_hexstr mkAccount lineno orig_line st =
    inr (<[(host, PortStr port) := account]> st.1,
         st.2 ++ [LogRecord WARNING "account file: invalid line %d: %s"
                    [py_str (Z.of_nat lineno); e]]).
Proof.
  intros Hb Hf Hp Hk Ht Ha. unfold accounts_line. rewrite Hb, Hf, Hp.
  unfold accounts_entry. rewrite Hk.
  assert (negb (salt_truth salt) && negb (key_truth k) = false) as ->.
  { by destruct (salt_truth salt), (key_truth k). }
  by rewrite Ha.
Qed.

Lemma load_accounts_keeps_bad_port_witness :
  load_accounts Py.nonempty Py.nonempty comma_pair plain_account
    (Some ("localhost : abc : bob : ,c0ffee" +:+ nl))
  = inr (<[("localhost", PortStr "abc") := ("bob", "", "c0ffee")]> ∅,
         [LogRecord WARNING "account file: invalid line %d: %s"
            ["0"; "invalid literal for int() with base 10: 'abc'"]]).
Proof.
  change (load_accounts Py.nonempty Py.nonempty comma_pair plain_account
            (Some ("localhost : abc : bob : ,c0ffee" +:+ nl)))
    with (match accounts_line Py.nonempty Py.nonempty comma_pair plain_account 0
                  ("localhost : abc : bob : ,c0ffee" +:+ nl) (∅, []) with
          | inl e => inl e
          | inr st' => inr st'
          end).
  rewrite (load_accounts_keeps_bad_port Py.nonempty Py.nonempty comma_pair plain_account
             0 ("localhost : abc : bob : ,c0ffee" +:+ nl) (∅, [])
             "localhost" "abc" "bob" ",c0ffee"
             "invalid literal for int() with base 10: 'abc'" "" "c0ffee"
             ("bob", "", "c0ffee")).
  - reflexivity.
  - reflexivity.
  - reflexivity.
  - reflexivity.
  - reflexivity.
  - reflexivity.
  - reflexivity.
Defined.

(** ** The access file: further properties of the loader *)

Section AccessMore.

Context {V : Type} (accounts : gmap string V).

Implicit Types (st : gmap string (gset string) * list log_record).

Lemma apply_rule_log_irrel b ops us (m : gmap string (gset string)) log1 log2 :
  (apply_rule b ops us (m, log1)).1 = (apply_rule b ops us (m, log2)).1.
Proof. apply map_eq. intros u. by rewrite !apply_rule_lookup. Qed.

Lemma access_line_log_irrel (m : gmap string (gset string)) log1 log2 line :
  (access_line accounts (m, log1) line).1 = (access_line accounts (m, log2) line).1.
Proof.
  unfold access_line. destruct (blank_or_comment line); [done|].
  destruct (access_fields line) as [e|[[operations users] allowed]]; [done|].
  destruct (allow_deny allowed) as [e|b]; [done|].
  apply apply_rule_log_irrel.
Qed.

Lemma access_lines_log_irrel lines (m : gmap string (gset string)) log1 log2 :
  (foldl (access_line accounts) (m, log1) lines).1 =
  (foldl (access_line accounts) (m, log2) lines).1.
Proof.
  revert m log1 log2. induction lines as [|line lines IH]; intros m log1 log2; [done|].
  simpl. pose proof (access_line_log_irrel m log1 log2 line) as H.
  destruct (access_line accounts (m, log1) line) as [m1 k1].
  destruct (access_line accounts (m, log2) line) as [m2 k2].
  simpl in H. subst m2. apply IH.
Qed.

Lemma apply_rule_log_mono b ops us st x :
  x ∈ st.2 → x ∈ (apply_rule b ops us st).2.
Proof.
  revert st. induction us as [|u us IH]; intros [m log] Hx; [done|].
  rewrite apply_rule_cons. apply IH. simpl in *. apply elem_of_app. by left.
Qed.

Lemma access_line_log_mono st line x :
  x ∈ st.2 → x ∈ (access_line accounts st line).2.
Proof.
  intros Hx. unfold access_line. destruct (blank_or_comment line); [done|].
  destruct (access_fields line) as [e|[[operations users] allowed]]; simpl.
  { apply elem_of_app. by left. }
  destruct (allow_deny allowed) as [e|b]; simpl.
  { apply elem_of_app. by left. }
  by apply apply_rule_log_mono.
Qed.

Lemma access_lines_log_mono lines st x :
  x ∈ st.2 → x ∈ (foldl (access_line accounts) st lines).2.
Proof.
  revert st. induction lines as [|line lines IH]; intros st Hx; [done|].
  simpl. by apply IH, access_line_log_mono.
Qed.

Lemma access_line_invalid st line :
  invalid_rule line = true →
  access_line accounts st line =
    (st.1, st.2 ++ [LogRecord WARNING "Invalid ACL line: %r" [line]]).
Proof.
  unfold invalid_rule, access_line.
  destruct (blank_or_comment line); [done|]. simpl.
  destruct (access_fields line) as [e|[[operations users] allowed]]; [done|].
  by destruct (allow_deny allowed).
Qed.

Lemma load_access_file_log content x :
  x ∈ (foldl (access_line accounts) (∅, []) (Py.readlines content)).2 →
  x ∈ (load_access_file (Some content) accounts).2.
Proof.
  unfold load_access_file.
  destruct (foldl (access_line accounts) (∅, []) (Py.readlines content)). simpl.
  intros Hx. apply elem_of_app. by left.
Qed.

(** A permission in the table was granted by some line. *)
Lemma access_lines_granted lines st u c :
  query (foldl (access_line accounts) st lines).1 u c = true →
  query st.1 u c = true ∨ existsb (grants accounts u c) lines = true.
Proof.
  revert st. induction lines as [|line lines IH]; intros st; simpl; [by left|].
  intros [Hq|Hl]%IH; [|right; by rewrite Hl, orb_true_r].
  destruct (touches accounts u c line) eqn:Ht.
  - right. apply orb_true_iff. left.
    unfold touches in Ht. unfold grants.
    destruct (blank_or_comment line) eqn:Hb; [done|]. simpl in *.
    destruct (access_fields line) as [e|[[operations users] allowed]] eqn:Hf; [done|].
    destruct (allow_deny allowed) as [e|b] eqn:Ha; [done|].
    apply andb_true_iff in Ht as [Hu%bool_decide_eq_true Hc%bool_decide_eq_true].
    rewrite (access_line_touch accounts st line _ _ _ b u c Hb Hf Ha Hu Hc) in Hq.
    subst b. by rewrite !bool_decide_eq_true_2.
  - left. by rewrite access_line_untouched in Hq.
Qed.

End AccessMore.

(** X1. A line of the access file that is neither blank nor a comment and
    that has not exactly three fields, or whose third field is neither
    [allow] nor [deny], is skipped: the table is the one of the file
    without the line, and a warning that carries the line is logged. *)
Theorem load_access_file_skips_invalid {V} (accounts : gmap string V)
    (content content' : string) (l1 : list string) (line : string) (l2 : list string) :
  Py.readlines content = l1 ++ line :: l2 →
  Py.readlines content' = l1 ++ l2 →
  invalid_rule line = true →
  (load_access_file (Some content) accounts).1 =
    (load_access_file (Some content') accounts).1 ∧
  LogRecord WARNING "Invalid ACL line: %r" [line]
    ∈ (load_access_file (Some content) accounts).2.
Proof.
  intros Hc Hc' Hi. split.
  - rewrite !load_access_file_acl, Hc, Hc', !foldl_app. simpl.
    rewrite access_line_invalid by done.
    destruct (foldl (access_line accounts) (∅, []) l1) as [m log]. simpl.
    apply access_lines_log_irrel.
  - apply load_access_file_log. rewrite Hc, foldl_app. simpl.
    apply access_lines_log_mono. rewrite access_line_invalid by done. simpl.
    apply elem_of_app. right. by apply list_elem_of_singleton.
Qed.

Lemma load_access_file_skips_invalid_witness :
  (load_access_file
     (Some ("check : bob : allow" +:+ nl +:+ "report : bob : maybe" +:+ nl +:+
            "ping : bob" +:+ nl)) (∅ : gmap string string)).1 =
  (load_access_file
     (Some ("check : bob : allow" +:+ nl +:+ "ping : bob" +:+ nl))
     (∅ : gmap string string)).1.
Proof.
  refine (proj1
    (load_access_file_skips_invalid (∅ : gmap string string)
       ("check : bob : allow" +:+ nl +:+ "report : bob : maybe" +:+ nl +:+
        "ping : bob" +:+ nl)
       ("check : bob : allow" +:+ nl +:+ "ping : bob" +:+ nl)
       ["check : bob : allow" +:+ nl] ("report : bob : maybe" +:+ nl)
       ["ping : bob" +:+ nl] _ _ _)).
  - reflexivity.
  - reflexivity.
  - reflexivity.
Defined.

(** X2. Whatever the file holds, a user is allowed a command only if some
    [allow] line of the file lists both the user (by name, or through
    [all] when the user is an account) and the command: every other pair
    is denied, which is the implicit final rule. *)
Theorem load_access_file_allows_only_granted {V} (accounts : gmap string V)
    (content u c : string) :
  query (load_access_file (Some content) accounts).1 u c = true →
  existsb (grants accounts u c) (Py.readlines content) = true.
Proof.
  rewrite load_access_file_acl. intros [Hq|H]%access_lines_granted; [|done].
  unfold query in Hq. simpl in Hq. rewrite lookup_empty in Hq.
  apply bool_decide_eq_true in Hq. set_solver.
Qed.

Lemma load_access_file_allows_only_granted_witness :
  existsb (grants (<["carol" := "k"]> ∅) "carol" "info")
    (Py.readlines ("all : all : allow" +:+ nl +:+ "check : carol : deny" +:+ nl)) = true.
Proof.
  refine (load_access_file_allows_only_granted (<["carol" := "k"]> ∅)
            ("all : all : allow" +:+ nl +:+ "check : carol : deny" +:+ nl)
            "carol" "info" _).
  reflexivity.
Defined.

(** X3. Applying a line of the access file a second time changes nothing
    in the table: granting operations that are already allowed, or
    revoking operations that are not allowed, has no effect. *)
Theorem access_line_idempotent {V} (accounts : gmap string V)
    (st : gmap string (gset string) * list log_record) (line : string) :
  (access_line accounts (access_line accounts st line) line).1 =
  (access_line accounts st line).1.
Proof.
  destruct (blank_or_comment line) eqn:Hb.
  { unfold access_line. by rewrite Hb. }
  destruct (invalid_rule line) eqn:Hi.
  { by rewrite !access_line_invalid. }
  unfold invalid_rule in Hi. rewrite Hb in Hi. simpl in Hi.
  destruct (access_fields line) as [e|[[operations users] allowed]] eqn:Hf; [done|].
  destruct (allow_deny allowed) as [e|b] eqn:Ha; [done|].
  apply map_eq. intros u.
  rewrite (access_line_lookup accounts _ line _ _ _ b u Hb Hf Ha).
  rewrite (access_line_lookup accounts st line _ _ _ b u Hb Hf Ha).
  destruct (decide (u ∈ rule_users accounts users)); [|done].
  simpl. by rewrite rule_effect_idemp.
Qed.

(** X5. The table is a [defaultdict]: a [deny] line that lists a user the
    table does not hold yet gives that user an entry with the empty set,
    and the user is denied every command. *)
Theorem deny_creates_empty_entry {V} (accounts : gmap string V)
    (st : gmap string (gset string) * list log_record) (line : string)
    (operations users allowed u : string) :
  blank_or_comment line = false →
  access_fields line = inr (operations, users, allowed) →
  allow_deny allowed = inr false →
  u ∈ rule_users accounts users →
  st.1 !! u = None →
  (access_line accounts st line).1 !! u = Some ∅ ∧
  ∀ c, query (access_line accounts st line).1 u c = false.
Proof.
  intros Hb Hf Ha Hu Hnone.
  assert ((access_line accounts st line).1 !! u = Some ∅) as Hl.
  { rewrite (access_line_lookup accounts st line _ _ _ false u Hb Hf Ha).
    rewrite decide_True, Hnone by done. simpl. f_equal. set_solver. }
  split; [done|]. intros c. unfold query. rewrite Hl. simpl.
  apply bool_decide_eq_false. set_solver.
Qed.

Lemma deny_creates_empty_entry_witness :
  (access_line (∅ : gmap string string) (∅, []) ("report : mallory : deny" +:+ nl)).1
    !! "mallory" = Some ∅.
Proof.
  refine (proj1
    (deny_creates_empty_entry (∅ : gmap string string) (∅, [])
       ("report : mallory : deny" +:+ nl) "report" "mallory" "deny" "mallory"
       _ _ _ _ _)).
  - reflexivity.
  - reflexivity.
  - reflexivity.
  - vm_compute. set_solver.
  - reflexivity.
Defined.

(** ** The access file: letter case and the names in the table *)

Section CaseFacts.

Implicit Types (s : string) (c : ascii) (p : ascii → bool).

Lemma lower_char_isspace c : Py.isspace (Py.lower_char c) = Py.isspace c.
Proof. by destruct c as [[] [] [] [] [] [] [] []]. Qed.

Lemma lower_char_colon c :
  bool_decide (Py.lower_char c = ":"%char) = bool_decide (c = ":"%char).
Proof. destruct c as [[] [] [] [] [] [] [] []]; reflexivity. Qed.

Lemma lower_char_hash c :
  bool_decide (Py.lower_char c = "#"%char) = bool_decide (c = "#"%char).
Proof. destruct c as [[] [] [] [] [] [] [] []]; reflexivity. Qed.

Lemma lower_char_newline c :
  bool_decide (Py.lower_char c = Py.newline) = bool_decide (c = Py.newline).
Proof. destruct c as [[] [] [] [] [] [] [] []]; reflexivity. Qed.

Lemma lstrip_lower s : Py.lstrip (Py.lower s) = Py.lower (Py.lstrip s).
Proof.
  induction s as [|c s IH]; simpl; [done|].
  rewrite lower_char_isspace. by destruct (Py.isspace c).
Qed.

Lemma rstrip_lower s : Py.rstrip (Py.lower s) = Py.lower (Py.rstrip s).
Proof.
  induction s as [|c s IH]; simpl; [done|].
  rewrite IH, lower_char_isspace.
  destruct (Py.rstrip s); simpl; [|done]. by destruct (Py.isspace c).
Qed.

Lemma strip_lower s : Py.strip (Py.lower s) = Py.lower (Py.strip s).
Proof. unfold Py.strip. by rewrite lstrip_lower, rstrip_lower. Qed.

Lemma nonempty_lower s : Py.nonempty (Py.lower s) = Py.nonempty s.
Proof. by destruct s. Qed.

Lemma split_on_lower p s :
  (∀ c, p (Py.lower_char c) = p c) →
  Py.split_on p (Py.lower s) = Py.lower <$> Py.split_on p s.
Proof.
  intros Hp. induction s as [|c s IH]; simpl; [done|].
  rewrite Hp, IH. destruct (p c); [done|].
  by destruct (Py.split_on p s).
Qed.

Lemma readlines_lower s : Py.readlines (Py.lower s) = Py.lower <$> Py.readlines s.
Proof.
  induction s as [|c s IH]; simpl; [done|].
  rewrite lower_char_newline, IH. destruct (bool_decide (c = Py.newline)); [done|].
  by destruct (Py.readlines s).
Qed.

Lemma blank_or_comment_lower s : blank_or_comment (Py.lower s) = blank_or_comment s.
Proof.
  unfold blank_or_comment. rewrite strip_lower, nonempty_lower. f_equal.
  destruct s as [|c s]; [done|]. simpl. apply lower_char_hash.
Qed.

Lemma access_fields_lower_line s : access_fields (Py.lower s) = access_fields s.
Proof.
  unfold access_fields, Py.split.
  rewrite split_on_lower by apply lower_char_colon.
  rewrite <- list_fmap_compose. f_equal. apply list_fmap_ext.
  intros _ part _. simpl. by rewrite lower_idemp.
Qed.

Lemma access_line_lower {V} (accounts : gmap string V)
    (st : gmap string (gset string) * list log_record) s :
  (access_line accounts st (Py.lower s)).1 = (access_line accounts st s).1.
Proof.
  unfold access_line. rewrite blank_or_comment_lower, access_fields_lower_line.
  destruct (blank_or_comment s); [done|].
  destruct (access_fields s) as [e|[[operations users] allowed]]; [done|].
  by destruct (allow_deny allowed).
Qed.

Lemma string_forall_lower p s :
  (∀ c, p (Py.lower_char c) = p c) →
  string_forall p (Py.lower s) = string_forall p s.
Proof.
  intros Hp. induction s as [|c s IH]; simpl; [done|]. by rewrite Hp, IH.
Qed.

Lemma string_forall_and p q s :
  string_forall (λ c, p c && q c) s = string_forall p s && string_forall q s.
Proof.
  induction s as [|c s IH]; simpl; [done|]. rewrite IH.
  destruct (p c), (q c), (string_forall p s), (string_forall q s); done.
Qed.

(** A field of a rule line is made of lower-case characters other than
    the colon. *)
Lemma access_fields_plain line operations users allowed :
  access_fields line = inr (operations, users, allowed) →
  string_forall (λ c, negb (Py.isupper c) && negb (bool_decide (c = ":"%char)))
    operations = true.
Proof.
  unfold access_fields. intros Hf.
  pose proof (split_on_pieces (λ c, bool_decide (c = ":"%char)) line) as Hp.
  fold (Py.split ":" line) in Hp.
  destruct (Py.split ":" line) as [|a [|b [|c [|d l]]]]; simpl in Hf; try done.
  injection Hf as <- _ _. inversion_clear Hp as [|? ? Ha _].
  rewrite string_forall_and. apply andb_true_iff. split.
  - apply strip_forall, lower_no_upper.
  - apply strip_forall. rewrite string_forall_lower; [done|].
    intros ch. by rewrite lower_char_colon.
Qed.

Lemma rule_operations_plain line operations users allowed (tok : string) :
  access_fields line = inr (operations, users, allowed) →
  tok ∈ rule_operations operations → plain_name tok = true.
Proof.
  intros Hf. unfold rule_operations.
  destruct (decide (operations = "all")) as [->|_].
  - unfold all_operations. rewrite !elem_of_cons, elem_of_nil.
    intros [->|[->|[->|[->|[->|[->|[]]]]]]]; reflexivity.
  - rewrite strip_split_ws. intros Hc.
    apply access_fields_plain in Hf.
    pose proof (proj1 (Forall_forall _ _) (split_ws_forall _ _ Hf) tok Hc) as H1.
    pose proof (proj1 (Forall_forall _ _) (split_ws_tokens operations) tok Hc) as H2.
    cbv beta in H1, H2.
    unfold Py.split_ws in Hc. apply list_elem_of_filter in Hc as [Hne _].
    unfold plain_name. rewrite Hne. simpl.
    rewrite string_forall_and in H1. apply andb_true_iff in H1 as [Hu Hcol].
    unfold plain_char. rewrite !string_forall_and, H2, Hu, Hcol. done.
Qed.

End CaseFacts.

(** X4. The access file is read without regard to letter case: the file
    written in lower case gives the same table. *)
Theorem load_access_file_case_insensitive {V} (accounts : gmap string V)
    (content : string) :
  (load_access_file (Some (Py.lower content)) accounts).1 =
  (load_access_file (Some content) accounts).1.
Proof.
  rewrite !load_access_file_acl, readlines_lower.
  generalize (Py.readlines content). intros lines.
  generalize (∅ : gmap string (gset string)). intros m.
  generalize (@nil log_record) at 1. generalize (@nil log_record).
  revert m. induction lines as [|line lines IH]; intros m log1 log2; [done|].
  rewrite fmap_cons. simpl.
  pose proof (access_line_lower accounts (m, log2) line) as H1.
  pose proof (access_line_log_irrel accounts m log2 log1 line) as H2.
  destruct (access_line accounts (m, log2) (Py.lower line)) as [m1 k1].
  destruct (access_line accounts (m, log1) line) as [m2 k2].
  destruct (access_line accounts (m, log2) line) as [m3 k3].
  simpl in *. subst. apply IH.
Qed.

(** X6. Every permission the loaded table holds is a plain name: it is not
    empty and has no whitespace, no upper-case letter and no colon. *)
Theorem load_access_file_plain_permissions {V} (accounts : gmap string V)
    (content u : string) (permitted : gset string) (c : string) :
  (load_access_file (Some content) accounts).1 !! u = Some permitted →
  c ∈ permitted →
  plain_name c = true.
Proof.
  rewrite load_access_file_acl.
  assert (Hinv : ∀ lines (st : gmap string (gset string) * list log_record),
    (∀ v S d, st.1 !! v = Some S → d ∈ S → plain_name d = true) →
    ∀ v S d, (foldl (access_line accounts) st lines).1 !! v = Some S →
             d ∈ S → plain_name d = true).
  { induction lines as [|line lines IH]; intros st Hst; [done|].
    simpl. apply IH. intros v S d.
    unfold access_line. destruct (blank_or_comment line); [apply Hst|].
    destruct (access_fields line) as [e|[[operations users] allowed]] eqn:Hf;
      [apply Hst|].
    destruct (allow_deny allowed) as [e|b]; [apply Hst|].
    rewrite apply_rule_lookup.
    destruct (decide (v ∈ rule_users accounts users)); [|apply Hst].
    intros [= <-] Hd.
    assert (d ∈ default ∅ (st.1 !! v) ∨ d ∈ rule_operations operations) as [Hd'|Hd'].
    { destruct b; simpl in Hd; set_solver. }
    - destruct (st.1 !! v) as [S|] eqn:Hv; simpl in Hd'; [|set_solver].
      by eapply Hst.
    - by eapply rule_operations_plain. }
  apply Hinv. simpl. intros v S d. by rewrite lookup_empty.
Qed.

Lemma load_access_file_plain_permissions_witness :
  plain_name "report" = true.
Proof.
  refine (load_access_file_plain_permissions (∅ : gmap string string)
            ("Check REPORT : Bob : ALLOW" +:+ nl) "bob"
            (rule_effect true ∅ ["check"; "report"]) "report" _ _).
  - rewrite load_access_file_acl.
    change (Py.readlines ("Check REPORT : Bob : ALLOW" +:+ nl))
      with ["Check REPORT : Bob : ALLOW" +:+ nl].
    cbn [foldl].
    rewrite (access_line_lookup (∅ : gmap string string) (∅, [])
               ("Check REPORT : Bob : ALLOW" +:+ nl) "check report" "bob" "allow"
               true "bob" eq_refl eq_refl eq_refl).
    change (rule_users (∅ : gmap string string) "bob") with ["bob"].
    change (rule_operations "check report") with ["check"; "report"].
    rewrite decide_True by (apply list_elem_of_singleton; reflexivity).
    cbn [fst]. by rewrite lookup_empty.
  - unfold rule_effect. apply elem_of_union. right.
    apply elem_of_list_to_set. apply elem_of_cons. right.
    apply list_elem_of_singleton. reflexivity.
Defined.

(** ** The server accounts file: where the entries come from *)

Section PasswdMore.

Implicit Types (s : string) (st : gmap string string * list log_record).

Lemma rstrip_idemp s : Py.rstrip (Py.rstrip s) = Py.rstrip s.
Proof.
  induction s as [|c s IH]; [done|]. cbn [Py.rstrip].
  destruct (Py.rstrip s) as [|c' r] eqn:Hr.
  - destruct (Py.isspace c) eqn:Hc; [done|]. simpl. by rewrite Hc.
  - change (Py.rstrip (String c (String c' r)))
      with (match Py.rstrip (String c' r) with
            | EmptyString =>
                if Py.isspace c then EmptyString else String c EmptyString
            | String c0 r0 => String c (String c0 r0)
            end).
    by rewrite IH.
Qed.

Lemma lstrip_head s :
  match Py.lstrip s with
  | EmptyString => True
  | String c _ => Py.isspace c = false
  end.
Proof.
  induction s as [|c s IH]; simpl; [done|].
  by destruct (Py.isspace c) eqn:Hc.
Qed.

Lemma rstrip_head c s :
  Py.isspace c = false → ∃ r, Py.rstrip (String c s) = String c r.
Proof.
  intros Hc. simpl. rewrite Hc. destruct (Py.rstrip s); by eexists.
Qed.

(** [s.strip().strip() == s.strip()] *)
Lemma strip_idemp s : Py.strip (Py.strip s) = Py.strip s.
Proof.
  unfold Py.strip. pose proof (lstrip_head s) as Hh.
  destruct (Py.lstrip s) as [|c t]; [done|].
  destruct (rstrip_head c t Hh) as [r Hr].
  assert (Py.lstrip (Py.rstrip (String c t)) = Py.rstrip (String c t)) as ->.
  { rewrite Hr. simpl. by rewrite Hh. }
  apply rstrip_idemp.
Qed.

(** An entry of the mapping was written by a well-formed line. *)
Lemma passwd_lines_origin lines st u k :
  (foldl passwd_line st lines).1 !! u = Some k →
  st.1 !! u = Some k ∨
  ∃ line user key,
    line ∈ lines ∧ blank_or_comment line = false ∧
    Py.split ":" line = [user; key] ∧ u = Py.strip user ∧ k = Py.strip key.
Proof.
  revert st. induction lines as [|line lines IH]; intros st; simpl; [by left|].
  intros [H|(l & user & key & Hin & Hrest)]%IH.
  - unfold passwd_line in H.
    destruct (blank_or_comment line) eqn:Hb; [by left|].
    destruct (Py.split ":" line) as [|a [|b [|c l]]] eqn:Hs; simpl in H;
      try by left.
    destruct (decide (u = Py.strip a)) as [->|Hne].
    + rewrite lookup_insert_eq in H. injection H as <-.
      right. exists line, a, b. split_and!; try done. by left.
    + rewrite lookup_insert_ne in H by done. by left.
  - right. exists l, user, key. split; [by right|done].
Qed.

Lemma split_part_no_colon line parts part :
  Py.split ":" line = parts → part ∈ parts →
  string_forall (λ c, negb (bool_decide (c = ":"%char))) part = true.
Proof.
  intros <- Hin.
  by apply (proj1 (Forall_forall _ _)
              (split_on_pieces (λ c, bool_decide (c = ":"%char)) line)).
Qed.

End PasswdMore.

(** X7. Every entry of the mapping [load_passwd_file] returns was written
    by a line of the file that is neither blank nor a comment and that
    splits into exactly two parts at the colon: the username is the first
    part and the key the second, both stripped. *)
Theorem load_passwd_file_entries_from_lines (content u k : string) :
  (load_passwd_file (Some content)).1 !! u = Some k →
  ∃ line user key,
    line ∈ Py.readlines content ∧ blank_or_comment line = false ∧
    Py.split ":" line = [user; key] ∧ u = Py.strip user ∧ k = Py.strip key.
Proof.
  rewrite load_passwd_file_accounts. intros [H|H]%passwd_lines_origin; [|done].
  simpl in H. by rewrite lookup_empty in H.
Qed.

Lemma load_passwd_file_entries_from_lines_witness :
  ∃ line user key,
    line ∈ Py.readlines ("# users" +:+ nl +:+ " bob : k1 " +:+ nl) ∧
    blank_or_comment line = false ∧
    Py.split ":" line = [user; key] ∧ "bob" = Py.strip user ∧ "k1" = Py.strip key.
Proof.
  refine (load_passwd_file_entries_from_lines
            ("# users" +:+ nl +:+ " bob : k1 " +:+ nl) "bob" "k1" _).
  reflexivity.
Defined.

(** X8. The usernames and the keys of the mapping [load_passwd_file]
    returns are normalised: stripping them again changes nothing, and
    neither holds a colon. *)
Theorem load_passwd_file_normalised (content u k : string) :
  (load_passwd_file (Some content)).1 !! u = Some k →
  Py.strip u = u ∧ Py.strip k = k ∧
  string_forall (λ c, negb (bool_decide (c = ":"%char))) u = true ∧
  string_forall (λ c, negb (bool_decide (c = ":"%char))) k = true.
Proof.
  rewrite load_passwd_file_accounts. intros [H|H]%passwd_lines_origin.
  { simpl in H. by rewrite lookup_empty in H. }
  destruct H as (line & user & key & _ & _ & Hs & -> & ->).
  split_and!; try apply strip_idemp.
  - apply strip_forall. eapply split_part_no_colon; [done|]. set_solver.
  - apply strip_forall. eapply split_part_no_colon; [done|]. set_solver.
Qed.

Lemma load_passwd_file_normalised_witness :
  Py.strip "bob" = "bob" ∧ Py.strip "k1" = "k1" ∧
  string_forall (λ c, negb (bool_decide (c = ":"%char))) "bob" = true ∧
  string_forall (λ c, negb (bool_decide (c = ":"%char))) "k1" = true.
Proof.
  refine (load_passwd_file_normalised
            ("# users" +:+ nl +:+ " bob : k1 " +:+ nl) "bob" "k1" _).
  reflexivity.
Defined.

(** X9. The two server loaders look for the comment mark in the first
    character of the raw line, the client loader in the stripped line. So
    a line that starts with whitespace and then [#] is not a comment for
    the server loaders, which parse it ([load_passwd_file] stores it when
    it has two parts), while the client loader ignores it. *)
Theorem indented_hash_is_comment_for_client_only {Salt Key Account : Type}
    (salt_truth : Salt → bool) (key_truth : Key → bool)
    (key_from_hexstr : string → exn + (Salt * Key))
    (mkAccount : string → Salt → Key → exn + Account)
    (c : ascii) (rest : string) :
  Py.isspace c = true →
  Py.startswith "#" (Py.strip (String c rest)) = true →
  blank_or_comment (String c rest) = false ∧
  (∀ st user key,
     Py.split ":" (String c rest) = [user; key] →
     (passwd_line st (String c rest)).1 = <[Py.strip user := Py.strip key]> st.1) ∧
  (∀ lineno st,
     accounts_line salt_truth key_truth key_from_hexstr mkAccount lineno
       (String c rest) st = inr st).
Proof.
  intros Hc Hhash.
  assert (blank_or_comment (String c rest) = false) as Hb.
  { unfold blank_or_comment.
    destruct (Py.strip (String c rest)) as [|c' t]; [done|]. simpl.
    apply bool_decide_eq_false. intros ->. done. }
  split_and!; [done| |].
  - intros st user key Hs. by apply passwd_line_store.
  - intros lineno st. unfold accounts_line. by rewrite Hhash, orb_true_r.
Qed.

Lemma indented_hash_is_comment_for_client_only_witness :
  (passwd_line (∅, []) (" #bob : k1" +:+ nl)).1 = <["#bob" := "k1"]> ∅.
Proof.
  refine (proj1 (proj2
    (indented_hash_is_comment_for_client_only (Account := string * string * string)
       Py.nonempty Py.nonempty comma_pair plain_account " " ("#bob : k1" +:+ nl) _ _))
    (∅, []) " #bob " (" k1" +:+ nl) _).
  - reflexivity.
  - reflexivity.
  - reflexivity.
Defined.

(** ** The client accounts file: further properties of the loader *)

Section ClientMore.

Context {Salt Key Account : Type}.
Context (salt_truth : Salt → bool) (key_truth : Key → bool).
Context (key_from_hexstr : string → exn + (Salt * Key)).
Context (mkAccount : string → Salt → Key → exn + Account).

Implicit Types (st : gmap (string * port_value) Account * list log_record).

Local Abbreviation accounts_entry' := (accounts_entry salt_truth key_truth key_from_hexstr mkAccount).
Local Abbreviation accounts_line' := (accounts_line salt_truth key_truth key_from_hexstr mkAccount).
Local Abbreviation load_accounts_lines' :=
  (load_accounts_lines salt_truth key_truth key_from_hexstr mkAccount).

(** [int] raises nothing but [ValueError]. *)
Lemma py_int_value_error s e : py_int s = inl e → ∃ msg, e = ValueError msg.
Proof.
  unfold py_int. intros H.
  repeat case_match; simplify_eq; by eexists.
Qed.

Lemma load_accounts_lines_app n l1 l2 st :
  load_accounts_lines' n (l1 ++ l2) st =
    match load_accounts_lines' n l1 st with
    | inl e => inl e
    | inr st' => load_accounts_lines' (n + length l1) l2 st'
    end.
Proof.
  revert n st. induction l1 as [|line l1 IH]; intros n st; simpl.
  - by rewrite Nat.add_0_r.
  - destruct (accounts_line' n line st) as [e|st']; [done|].
    rewrite IH. by rewrite Nat.add_succ_comm.
Qed.

(** The entry step stores at most the address it was given. *)
Lemma accounts_entry_map (n : nat) (host : string) (port : port_value)
    (username key : string) st st' :
  accounts_entry' n host port username key st = inr st' →
  st'.1 = st.1 ∨ ∃ account, st'.1 = <[(host, port) := account]> st.1.
Proof.
  unfold accounts_entry. intros H.
  repeat case_match; simplify_eq; simpl; eauto.
Qed.

(** A line changes no address but its own. *)
Lemma accounts_line_other n line st st' a :
  accounts_line' n line st = inr st' →
  line_address line ≠ Some a →
  st'.1 !! a = st.1 !! a.
Proof.
  unfold accounts_line, line_address.
  destruct (negb (Py.nonempty (Py.strip line)) || Py.startswith "#" (Py.strip line)).
  { by intros [= <-]. }
  destruct (unpack4 (Py.strip <$> Py.split ":" (Py.strip line)))
    as [e|[[[host port] username] key]].
  { by intros [= <-]. }
  destruct (py_int port) as [e|z] eqn:Hp.
  - destruct (py_int_value_error _ _ Hp) as [msg ->].
    intros [H|[acct H]]%accounts_entry_map Hne; rewrite H; [done|].
    simpl. rewrite lookup_insert_ne; [done|congruence].
  - intros [H|[acct H]]%accounts_entry_map Hne; rewrite H; [done|].
    rewrite lookup_insert_ne; [done|congruence].
Qed.

Lemma accounts_lines_other lines n st st' a :
  load_accounts_lines' n lines st = inr st' →
  forallb (λ line, negb (bool_decide (line_address line = Some a))) lines = true →
  st'.1 !! a = st.1 !! a.
Proof.
  revert n st. induction lines as [|line lines IH]; intros n st; simpl.
  { by intros [= <-]. }
  destruct (accounts_line' n line st) as [e|st1] eqn:Hl; [done|].
  intros Hrest [Hne Hall]%andb_true_iff.
  apply negb_true_iff, bool_decide_eq_false in Hne.
  rewrite (IH _ _ Hrest Hall). by eapply accounts_line_other.
Qed.

(** A line gives a text port only to a port field [int] rejects. *)
Lemma accounts_line_text_port n line st st' host s :
  accounts_line' n line st = inr st' →
  is_Some (st'.1 !! (host, PortStr s)) →
  is_Some (st.1 !! (host, PortStr s)) ∨ ∃ e, py_int s = inl e.
Proof.
  unfold accounts_line.
  destruct (negb (Py.nonempty (Py.strip line)) || Py.startswith "#" (Py.strip line)).
  { intros [= <-]. by left. }
  destruct (unpack4 (Py.strip <$> Py.split ":" (Py.strip line)))
    as [e|[[[h port] username] key]].
  { intros [= <-]. by left. }
  destruct (py_int port) as [e|z] eqn:Hp.
  - destruct (py_int_value_error _ _ Hp) as [msg ->].
    intros [H|[acct H]]%accounts_entry_map; rewrite H; [by left|].
    simpl. destruct (decide ((h, PortStr port) = (host, PortStr s))) as [[= -> ->]|Hne].
    + right. by eexists.
    + rewrite lookup_insert_ne by done. by left.
  - intros [H|[acct H]]%accounts_entry_map; rewrite H; [by left|].
    rewrite lookup_insert_ne by done. by left.
Qed.

End ClientMore.

(** X10. The client loader fails soft as long as [pyzor.account] does: if
    [key_from_hexstr] never raises and [Account] raises nothing but
    [ValueError], then [load_accounts] returns a mapping for every file,
    present or not. *)
Theorem load_accounts_fail_soft {Salt Key Account : Type}
    (salt_truth : Salt → bool) (key_truth : Key → bool)
    (key_from_hexstr : string → exn + (Salt * Key))
    (mkAccount : string → Salt → Key → exn + Account)
    (filename : option string) :
  (∀ s, ∃ r, key_from_hexstr s = inr r) →
  (∀ u salt k e, mkAccount u salt k = inl e → ∃ msg, e = ValueError msg) →
  ∃ r, load_accounts salt_truth key_truth key_from_hexstr mkAccount filename = inr r.
Proof.
  intros Hkey Hacct. destruct filename as [content|]; [|by eexists].
  unfold load_accounts. generalize (Py.readlines content) 0%nat (∅ : gmap (string * port_value) Account, @nil log_record).
  intros lines. induction lines as [|line lines IH]; intros n st; simpl; [by eexists|].
  assert (∃ st', accounts_line salt_truth key_truth key_from_hexstr mkAccount n line st
                 = inr st') as [st' ->]; [|apply IH].
  assert (Hentry : ∀ host port username key st0,
    ∃ st', accounts_entry salt_truth key_truth key_from_hexstr mkAccount n host port
             username key st0 = inr st').
  { intros host port username key st0. unfold accounts_entry.
    destruct (Hkey key) as [[salt k] ->].
    destruct (negb (salt_truth salt) && negb (key_truth k)); [by eexists|].
    destruct (mkAccount username salt k) as [e|account] eqn:Ha; [|by eexists].
    destruct (Hacct _ _ _ _ Ha) as [msg ->]. by eexists. }
  unfold accounts_line.
  destruct (negb (Py.nonempty (Py.strip line)) || Py.startswith "#" (Py.strip line));
    [by eexists|].
  destruct (unpack4 (Py.strip <$> Py.split ":" (Py.strip line)))
    as [e|[[[host port] username] key]]; [by eexists|].
  destruct (py_int port) as [e|z] eqn:Hp; [|apply Hentry].
  destruct (py_int_value_error _ _ Hp) as [msg ->]. apply Hentry.
Qed.

Lemma load_accounts_fail_soft_witness :
  ∃ r, load_accounts Py.nonempty Py.nonempty (λ s, inr (EmptyString, s)) plain_account
         (Some ("too : few" +:+ nl +:+ "localhost : 24441 : bob : c0ffee" +:+ nl))
       = inr r.
Proof.
  refine (load_accounts_fail_soft Py.nonempty Py.nonempty
            (λ s, inr (EmptyString, s)) plain_account
            (Some ("too : few" +:+ nl +:+ "localhost : 24441 : bob : c0ffee" +:+ nl))
            _ _).
  - intros s. by eexists.
  - intros u salt k e H. discriminate H.
Defined.

(** X11. An exception of [key_from_hexstr] is not caught: when the lines
    before load without an exception and a line with four parts holds key
    material that [key_from_hexstr] rejects, [load_accounts] raises that
    exception and returns no mapping, whatever the rest of the file. *)
Theorem load_accounts_key_error_aborts {Salt Key Account : Type}
    (salt_truth : Salt → bool) (key_truth : Key → bool)
    (key_from_hexstr : string → exn + (Salt * Key))
    (mkAccount : string → Salt → Key → exn + Account)
    (content : string) (l1 : list string) (line : string) (l2 : list string)
    (st : gmap (string * port_value) Account * list log_record)
    (host port username key : string) (e : exn) :
  Py.readlines content = l1 ++ line :: l2 →
  load_accounts_lines salt_truth key_truth key_from_hexstr mkAccount 0 l1 (∅, [])
    = inr st →
  negb (Py.nonempty (Py.strip line)) || Py.startswith "#" (Py.strip line) = false →
  unpack4 (Py.strip <$> Py.split ":" (Py.strip line))
    = inr (host, port, username, key) →
  key_from_hexstr key = inl e →
  load_accounts salt_truth key_truth key_from_hexstr mkAccount (Some content) = inl e.
Proof.
  intros Hc Hl1 Hb Hf Hk. unfold load_accounts.
  rewrite Hc, load_accounts_lines_app, Hl1. simpl.
  unfold accounts_line. rewrite Hb, Hf.
  destruct (py_int port) as [e'|z] eqn:Hp.
  - destruct (py_int_value_error _ _ Hp) as [msg ->].
    unfold accounts_entry. by rewrite Hk.
  - unfold accounts_entry. by rewrite Hk.
Qed.

Lemma load_accounts_key_error_aborts_witness :
  load_accounts Py.nonempty Py.nonempty comma_pair plain_account
    (Some ("localhost : 24441 : bob : ,c0ffee" +:+ nl +:+
           "example.org : 24441 : eve : nocomma" +:+ nl +:+
           "localhost : 24442 : carol : ,beef" +:+ nl))
  = inl (ValueError "wrong number of values to unpack").
Proof.
  refine (load_accounts_key_error_aborts Py.nonempty Py.nonempty comma_pair plain_account
            _ ["localhost : 24441 : bob : ,c0ffee" +:+ nl]
            ("example.org : 24441 : eve : nocomma" +:+ nl)
            ["localhost : 24442 : carol : ,beef" +:+ nl]
            (<[("localhost", PortInt 24441) := ("bob", "", "c0ffee")]> ∅, [])
            "example.org" "24441" "eve" "nocomma" _ _ _ _ _ _).
  - reflexivity.
  - reflexivity.
  - reflexivity.
  - reflexivity.
  - reflexivity.
Defined.

(** X12. When [load_accounts] returns, a line with an integer port and
    accepted key material that no later line of the same address
    follows decides the entry of its address: the mapping holds, under
    the host and the integer, the account made from that line, whatever
    earlier lines stored there. *)
Theorem load_accounts_last_wins {Salt Key Account : Type}
    (salt_truth : Salt → bool) (key_truth : Key → bool)
    (key_from_hexstr : string → exn + (Salt * Key))
    (mkAccount : string → Salt → Key → exn + Account)
    (content : string) (l1 : list string) (line : string) (l2 : list string)
    (result : gmap (string * port_value) Account * list log_record)
    (host port username key : string) (n : Z) (salt : Salt) (k : Key)
    (account : Account) :
  load_accounts salt_truth key_truth key_from_hexstr mkAccount (Some content)
    = inr result →
  Py.readlines content = l1 ++ line :: l2 →
  negb (Py.nonempty (Py.strip line)) || Py.startswith "#" (Py.strip line) = false →
  unpack4 (Py.strip <$> Py.split ":" (Py.strip line))
    = inr (host, port, username, key) →
  py_int port = inr n →
  key_from_hexstr key = inr (salt, k) →
  salt_truth salt || key_truth k = true →
  mkAccount username salt k = inr account →
  forallb (λ line', negb (bool_decide (line_address line' = Some (host, PortInt n)))) l2
    = true →
  result.1 !! (host, PortInt n) = Some account.
Proof.
  intros Hload Hc Hb Hf Hp Hk Ht Ha Hl2. unfold load_accounts in Hload.
  rewrite Hc, load_accounts_lines_app in Hload.
  destruct (load_accounts_lines salt_truth key_truth key_from_hexstr mkAccount 0 l1
              (∅, [])) as [e|st1]; [done|].
  simpl in Hload. unfold accounts_line in Hload. rewrite Hb, Hf, Hp in Hload.
  unfold accounts_entry in Hload. rewrite Hk in Hload.
  assert (negb (salt_truth salt) && negb (key_truth k) = false) as Hfalse.
  { by destruct (salt_truth salt), (key_truth k). }
  rewrite Hfalse, Ha in Hload.
  rewrite (accounts_lines_other _ _ _ _ _ _ _ _ _ Hload Hl2). simpl.
  apply lookup_insert_eq.
Qed.

Lemma load_accounts_last_wins_witness :
  (<[("example.org", PortInt 24441) := ("eve", "aa", "bb")]>
     (<[("localhost", PortInt 24441) := ("carol", "", "beef")]>
        (<[("localhost", PortInt 24441) := ("bob", "", "c0ffee")]>
           (∅ : gmap (string * port_value) (string * string * string)))),
   @nil log_record).1
    !! ("localhost", PortInt 24441) = Some ("carol", "", "beef").
Proof.
  refine (load_accounts_last_wins Py.nonempty Py.nonempty comma_pair plain_account
            ("localhost : 24441 : bob : ,c0ffee" +:+ nl +:+
             "localhost:24441:carol:,beef" +:+ nl +:+
             "example.org : 24441 : eve : aa,bb" +:+ nl)
            ["localhost : 24441 : bob : ,c0ffee" +:+ nl]
            ("localhost:24441:carol:,beef" +:+ nl)
            ["example.org : 24441 : eve : aa,bb" +:+ nl]
            (<[("example.org", PortInt 24441) := ("eve", "aa", "bb")]>
               (<[("localhost", PortInt 24441) := ("carol", "", "beef")]>
                  (<[("localhost", PortInt 24441) := ("bob", "", "c0ffee")]> ∅)), [])
            "localhost" "24441" "carol" ",beef" 24441 "" "beef" ("carol", "", "beef")
            _ _ _ _ _ _ _ _ _).
  - reflexivity.
  - reflexivity.
  - reflexivity.
  - reflexivity.
  - reflexivity.
  - reflexivity.
  - reflexivity.
  - reflexivity.
  - reflexivity.
Defined.

(** X13. In the mapping [load_accounts] returns, an address whose port is
    still text comes from a port field that [int] rejects: a port that
    reads as an integer is always stored as that integer. *)
Theorem load_accounts_text_port_not_integer {Salt Key Account : Type}
    (salt_truth : Salt → bool) (key_truth : Key → bool)
    (key_from_hexstr : string → exn + (Salt * Key))
    (mkAccount : string → Salt → Key → exn + Account)
    (filename : option string)
    (result : gmap (string * port_value) Account * list log_record)
    (host s : string) :
  load_accounts salt_truth key_truth key_from_hexstr mkAccount filename = inr result →
  is_Some (result.1 !! (host, PortStr s)) →
  ∃ e, py_int s = inl e.
Proof.
  destruct filename as [content|]; simpl.
  2:{ intros [= <-]. simpl. rewrite lookup_empty. by intros [? ?]. }
  assert (Hinv : ∀ lines n st st',
    load_accounts_lines salt_truth key_truth key_from_hexstr mkAccount n lines st
      = inr st' →
    is_Some (st'.1 !! (host, PortStr s)) →
    is_Some (st.1 !! (host, PortStr s)) ∨ ∃ e, py_int s = inl e).
  { induction lines as [|line lines IH]; intros n st st'; simpl.
    { intros [= <-]. by left. }
    destruct (accounts_line salt_truth key_truth key_from_hexstr mkAccount n line st)
      as [e|st1] eqn:Hl; [done|].
    intros Hrest [H|H]%(IH _ _ _ Hrest); [|by right].
    by eapply accounts_line_text_port. }
  intros Hload [H|H]%(Hinv _ _ _ _ Hload); [|done].
  simpl in H. rewrite lookup_empty in H. by destruct H.
Qed.

Lemma load_accounts_text_port_not_integer_witness :
  ∃ e, py_int "abc" = inl e.
Proof.
  refine (load_accounts_text_port_not_integer Py.nonempty Py.nonempty comma_pair
            plain_account (Some ("localhost : abc : bob : ,c0ffee" +:+ nl))
            (<[("localhost", PortStr "abc") := ("bob", "", "c0ffee")]> ∅,
             [LogRecord WARNING "account file: invalid line %d: %s"
                ["0"; "invalid literal for int() with base 10: 'abc'"]])
            "localhost" "abc" _ _).
  - reflexivity.
  - by eexists.
Defined.

(** ** The stored form of a record identifies the record *)

Lemma decode_record_as_str (r : record) :
  valid_record r → decode_record (record_as_str r) = inr r.
Proof.
  intros (Hrc & Hwc & Hre & Hru & Hwe & Hwu). unfold decode_record, record_as_str.
  rewrite split_join; [|done|].
  - rewrite decide_True by done.
    rewrite !py_int_str, !parse_datetime_str by done. by destruct r.
  - repeat constructor;
      first [ done | by apply py_str_no_comma | apply datetime_str_no_comma ].
Qed.

(** X14. Two valid records with the same text are the same record: the
    text [record_as_str] gives loses nothing of a record, although it
    prints the microseconds of a timestamp only when they are not zero. *)
Theorem record_as_str_injective (r1 r2 : record) :
  valid_record r1 → valid_record r2 →
  record_as_str r1 = record_as_str r2 →
  r1 = r2.
Proof.
  intros H1 H2 Heq.
  pose proof (decode_record_as_str r1 H1) as D1.
  pose proof (decode_record_as_str r2 H2) as D2.
  rewrite Heq, D2 in D1. by injection D1.
Qed.

Lemma record_as_str_injective_witness : sample_record = sample_record.
Proof.
  refine (record_as_str_injective sample_record sample_record _ _ _).
  - by vm_compute.
  - by vm_compute.
  - reflexivity.
Defined.

(** ** The mock database: traversing it *)

Section MockFacts.

Context (d : gmap string string).

Lemma walk_stops fuel i k :
  (length (keys d) <= i)%nat →
  walk (S fuel) (Mock d (Some i)) k = Some ([k], inr tt).
Proof.
  intros Hi. simpl. unfold nextkey. simpl.
  by rewrite (proj2 (Nat.leb_le _ _) Hi).
Qed.

Lemma walk_raises fuel i k :
  (i < length (keys d))%nat →
  (length (keys d) - i <= fuel)%nat →
  walk fuel (Mock d (Some i)) k = Some (k :: drop (S i) (keys d), inl IndexError).
Proof.
  revert i k. induction fuel as [|fuel IH]; intros i k Hi Hfuel; [lia|].
  cbn [walk]. unfold nextkey. cbn [key_index mock_dict].
  rewrite (proj2 (Nat.leb_gt _ _) Hi).
  destruct (keys d !! S i) as [k'|] eqn:Hk.
  - pose proof (lookup_lt_Some _ _ _ Hk) as Hlt.
    rewrite IH by lia. simpl. by rewrite (drop_S _ _ _ Hk).
  - apply lookup_ge_None in Hk. by rewrite drop_ge.
Qed.

End MockFacts.

(** X15. The traversal of the mock database with [firstkey] and [nextkey]
    works for at most one key. An empty database is traversed at once and
    a database of one key visits that key and stops; with two keys or more
    the traversal never visits the second key of [keys()] and ends with an
    [IndexError] instead of [None], after the first key and those from the
    third on. *)
Theorem mock_traversal (fuel : nat) (db : MockGdbm) :
  (length (keys (mock_dict db)) <= fuel)%nat →
  traverse fuel db =
    Some (match keys (mock_dict db) with
          | [] => ([], inr tt)
          | [k] => ([k], inr tt)
          | k :: _ :: rest => (k :: rest, inl IndexError)
          end).
Proof.
  intros Hfuel. unfold traverse, firstkey.
  destruct (keys (mock_dict db)) as [|k [|k1 rest]] eqn:Hks; [done| |].
  - destruct fuel as [|fuel]; [simpl in Hfuel; lia|].
    apply walk_stops. by rewrite Hks.
  - rewrite walk_raises.
    + by rewrite Hks.
    + rewrite Hks. simpl. lia.
    + rewrite Hks. simpl in *. lia.
Qed.

Lemma mock_traversal_witness :
  traverse 3 (Mock (<["a" := "1"]> (<["b" := "2"]> (<["c" := "3"]> ∅))) None) =
    Some (match keys (<["a" := "1"]> (<["b" := "2"]> (<["c" := "3"]> ∅))
                      : gmap string string) with
          | [] => ([], inr tt)
          | [k] => ([k], inr tt)
          | k :: _ :: rest => (k :: rest, inl IndexError)
          end).
Proof.
  refine (mock_traversal 3
            (Mock (<["a" := "1"]> (<["b" := "2"]> (<["c" := "3"]> ∅))) None) _).
  vm_compute. lia.
Defined.

(** ** The client accounts file: the line numbers of the warnings *)

Section ClientLog.

Context {Salt Key Account : Type}.
Context (salt_truth : Salt → bool) (key_truth : Key → bool).
Context (key_from_hexstr : string → exn + (Salt * Key)).
Context (mkAccount : string → Salt → Key → exn + Account).

Implicit Types (st : gmap (string * port_value) Account * list log_record).

Lemma accounts_entry_log_mono (n : nat) (host : string) (port : port_value)
    (username key : string) st st' x :
  accounts_entry salt_truth key_truth key_from_hexstr mkAccount n host port
    username key st = inr st' →
  x ∈ st.2 → x ∈ st'.2.
Proof.
  unfold accounts_entry. intros H Hx.
  repeat case_match; simplify_eq; simpl; try done; apply elem_of_app; by left.
Qed.

Lemma accounts_line_log_mono (n : nat) (line : string) st st' x :
  accounts_line salt_truth key_truth key_from_hexstr mkAccount n line st = inr st' →
  x ∈ st.2 → x ∈ st'.2.
Proof.
  unfold accounts_line. intros H Hx.
  destruct (negb (Py.nonempty (Py.strip line)) || Py.startswith "#" (Py.strip line)).
  { by simplify_eq. }
  destruct (unpack4 (Py.strip <$> Py.split ":" (Py.strip line)))
    as [e|[[[host port] username] key]].
  { simplify_eq. simpl. apply elem_of_app. by left. }
  destruct (py_int port) as [[msg|msg]|z]; [| done |].
  - eapply accounts_entry_log_mono; [done|]. simpl. apply elem_of_app. by left.
  - by eapply accounts_entry_log_mono.
Qed.

Lemma accounts_lines_log_mono (lines : list string) (n : nat) st st' x :
  load_accounts_lines salt_truth key_truth key_from_hexstr mkAccount n lines st
    = inr st' →
  x ∈ st.2 → x ∈ st'.2.
Proof.
  revert n st. induction lines as [|line lines IH]; intros n st; simpl.
  { by intros [= <-]. }
  destruct (accounts_line salt_truth key_truth key_from_hexstr mkAccount n line st)
    as [e|st1] eqn:Hl; [done|].
  intros Hrest Hx. eapply IH; [done|]. by eapply accounts_line_log_mono.
Qed.

End ClientLog.

(** X16. The line number in a warning of the client loader is the position
    of the line in the file counted from zero, blank lines and comments
    included: when [load_accounts] returns, a line that has not four
    parts and stands after [length l1] lines is reported under that
    number. *)
Theorem load_accounts_warns_with_position {Salt Key Account : Type}
    (salt_truth : Salt → bool) (key_truth : Key → bool)
    (key_from_hexstr : string → exn + (Salt * Key))
    (mkAccount : string → Salt → Key → exn + Account)
    (content : string) (l1 : list string) (line : string) (l2 : list string)
    (result : gmap (string * port_value) Account * list log_record) :
  load_accounts salt_truth key_truth key_from_hexstr mkAccount (Some content)
    = inr result →
  Py.readlines content = l1 ++ line :: l2 →
  negb (Py.nonempty (Py.strip line)) || Py.startswith "#" (Py.strip line) = false →
  length (Py.split ":" (Py.strip line)) ≠ 4%nat →
  LogRecord WARNING "account file: invalid line %d: wrong number of parts"
    [py_str (Z.of_nat (length l1))] ∈ result.2.
Proof.
  intros Hload Hc Hb Hlen. unfold load_accounts in Hload.
  rewrite Hc, load_accounts_lines_app in Hload.
  destruct (load_accounts_lines salt_truth key_truth key_from_hexstr mkAccount 0 l1
              (∅, [])) as [e|st1]; [done|].
  simpl in Hload. unfold accounts_line in Hload. rewrite Hb in Hload.
  assert (∃ e, unpack4 (Py.strip <$> Py.split ":" (Py.strip line)) = inl e) as [e He].
  { destruct (Py.split ":" (Py.strip line)) as [|a [|b [|c [|d [|f l]]]]];
      simpl in *; by eauto. }
  rewrite He in Hload.
  eapply accounts_lines_log_mono; [done|]. simpl.
  apply elem_of_app. right. by apply list_elem_of_singleton.
Qed.

Lemma load_accounts_warns_with_position_witness :
  LogRecord WARNING "account file: invalid line %d: wrong number of parts" ["2"]
    ∈ (<[("localhost", PortInt 24441) := ("bob", "", "c0ffee")]>
         (∅ : gmap (string * port_value) (string * string * string)),
       [LogRecord WARNING "account file: invalid line %d: wrong number of parts"
          ["2"]]).2.
Proof.
  refine (load_accounts_warns_with_position Py.nonempty Py.nonempty comma_pair plain_account
            ("# servers" +:+ nl +:+ nl +:+ "localhost : 24441 : bob" +:+ nl +:+
             "localhost : 24441 : bob : ,c0ffee" +:+ nl)
            ["# servers" +:+ nl; nl] ("localhost : 24441 : bob" +:+ nl)
            ["localhost : 24441 : bob : ,c0ffee" +:+ nl]
            (<[("localhost", PortInt 24441) := ("bob", "", "c0ffee")]> ∅,
             [LogRecord WARNING "account file: invalid line %d: wrong number of parts"
                ["2"]])
            _ _ _ _).
  - reflexivity.
  - reflexivity.
  - reflexivity.
  - discriminate.
Defined.
